(** * AI birthday hat: the tracking loop of [src/App.tsx]

    A shallow embedding of the [App] component: its React state and
    refs, the asynchronous [initialize] routine, the [detectFace] loop
    driven by [requestAnimationFrame], [handleStart], the effect
    cleanup, and what the render reads from the status (the overlay and
    the button).

    The component is single-threaded and event-driven, so it is modelled
    as a deterministic transition function [step : State -> Event ->
    State].  Every [await] splits an async function in two: the part up
    to the [await] runs in the step that reaches it, the continuation
    runs in the step of the event that settles the awaited promise.
    Everything the code reads from objects it does not own (what React
    has put in [videoRef.current], the video's [readyState] and sizes,
    whether [getContext] returns a context) is a parameter of the event
    in which it is read.

    The state setters of [useState] are taken to act at once, and their
    calls are recorded whether or not the component is still mounted
    ([published] is the log of the calls of [setHatPosition]).  React
    ignores a setter called after the unmount, so from then on only that
    log, the frames and the calls say what the code does; the state
    fields are no longer what a page shows.  React also decides what
    [videoRef.current] holds when the cleanup runs (it has cleared the
    ref by then in React 18): that is the parameter of [Unmount].  The start
    button can be pressed only while the component is mounted.  The
    detector returns a list of boxes; the diagnostic [console] output is
    not modelled.

    JavaScript numbers are IEEE 754 binary64 values; they are modelled
    by Rocq's primitive floats, whose operations are the same ones. *)

From Stdlib Require Import List String Bool Arith Lia Floats QArith Sorted.
Import ListNotations.
Close Scope Q_scope.

Set Implicit Arguments.

(** ** Data *)

(** [type Status] (line 19). *)
Inductive Status :=
| IDLE | INITIALIZING_WEBCAM | LOADING_MODEL | READY | DETECTING | ERROR.

Definition Status_eqb (a b : Status) : bool :=
  match a, b with
  | IDLE, IDLE | INITIALIZING_WEBCAM, INITIALIZING_WEBCAM
  | LOADING_MODEL, LOADING_MODEL | READY, READY
  | DETECTING, DETECTING | ERROR, ERROR => true
  | _, _ => false
  end.

(** The [display] field of [HatPosition]: ['block' | 'none']. *)
Inductive Display := block | none.

(** [interface HatPosition] (lines 10-17), over the type of numbers. *)
Record HatPosition (num : Type) := mkHat {
  top : num;
  left : num;
  width : num;
  height : num;
  transform : string;
  display : Display
}.

(** [face.box] of the detector's results. *)
Record Box (num : Type) := mkBox {
  xMin : num;
  yMin : num;
  bwidth : num;
  bheight : num
}.

(** The four sizes of the video element read at lines 64-65. *)
Record Dims (num : Type) := mkDims {
  offsetWidth : num;
  offsetHeight : num;
  videoWidth : num;
  videoHeight : num
}.

(** The arithmetic used by the placement computation, so that the same
    definition can be read in doubles (what runs) and in exact
    rationals (what the formulas mean on paper). *)
Class Arith (num : Type) := {
  nadd : num -> num -> num;
  nmul : num -> num -> num;
  ndiv : num -> num -> num;
  lit_2 : num;
  lit_1_5 : num
}.

#[export] Instance float_arith : Arith float := {|
  nadd := PrimFloat.add;
  nmul := PrimFloat.mul;
  ndiv := PrimFloat.div;
  lit_2 := 2%float;
  lit_1_5 := 1.5%float
|}.

#[export] Instance Q_arith : Arith Q := {|
  nadd := Qplus;
  nmul := Qmult;
  ndiv := Qdiv;
  lit_2 := (2 # 1)%Q;
  lit_1_5 := (3 # 2)%Q
|}.

Section Placement.
Context {num : Type} `{Arith num}.

Definition scaleX (d : Dims num) : num := ndiv (offsetWidth d) (videoWidth d).
Definition scaleY (d : Dims num) : num := ndiv (offsetHeight d) (videoHeight d).

(** The rectangle stroked on the canvas at line 77:
    [(scaledXMin, scaledYMin, scaledWidth, scaledHeight)]. *)
Definition faceRect (d : Dims num) (b : Box num) : num * num * num * num :=
  let scaledXMin := nmul (xMin b) (scaleX d) in
  let scaledYMin := nmul (yMin b) (scaleY d) in
  let scaledWidth := nmul (bwidth b) (scaleX d) in
  let scaledHeight := nmul (bheight b) (scaleY d) in
  (scaledXMin, scaledYMin, scaledWidth, scaledHeight).

(** The object passed to [setHatPosition] at lines 83-90. *)
Definition hatFor (d : Dims num) (b : Box num) : HatPosition num :=
  let scaledXMin := nmul (xMin b) (scaleX d) in
  let scaledYMin := nmul (yMin b) (scaleY d) in
  let scaledWidth := nmul (bwidth b) (scaleX d) in
  let hatWidth := nmul scaledWidth lit_1_5 in
  let hatHeight := hatWidth in
  let centerX := nadd scaledXMin (ndiv scaledWidth lit_2) in
  {| left := centerX;
     top := scaledYMin;
     width := hatWidth;
     height := hatHeight;
     transform := "translate(-50%, -90%) rotate(-10deg)";
     display := block |}.

(** The updater [prev => ({ ...prev, display: 'none' })] of line 92. *)
Definition hide (prev : HatPosition num) : HatPosition num :=
  {| left := left prev;
     top := top prev;
     width := width prev;
     height := height prev;
     transform := transform prev;
     display := none |}.
End Placement.

(** ** The component and its environment *)

(** Where [initialize] (lines 108-148) is suspended. *)
Inductive InitPc :=
| NotStarted
| AwaitGetUserMedia
| AwaitLoadedMetadata
| AwaitSetBackend
| AwaitTfReady
| AwaitCreateDetector
| Returned.

(** What one run of the synchronous part of [detectFace] reads from
    the page: the two refs, [video.readyState] and whether
    [canvas.getContext('2d')] gives a context. *)
Record TickEnv := mkTickEnv {
  video_current : bool;
  canvas_current : bool;
  readyState : nat;
  ctx_ok : bool
}.

Record State := mkState {
  (* useState *)
  status : Status;
  errorMessage : string;
  hatPosition : HatPosition float;
  (* useRef *)
  animationFrameId : option nat;
  detectorRef : bool;
  (* the async routine and the life of the component *)
  initPc : InitPc;
  mounted : bool;
  (* the browser: animation frames *)
  rafLast : nat;
  pending : list nat;
  (* the detector: calls of estimateFaces made, and those not settled *)
  calls : nat;
  inflight : list nat;
  (* every call of setHatPosition, newest first, with the call of
     estimateFaces whose continuation made it *)
  published : list (nat * HatPosition float);
  (* the camera: for each track of the stream, how often it was stopped *)
  camera : option (list nat);
  srcObject : bool;
  (* the canvas *)
  canvasSize : float * float;
  drawn : list (float * float * float * float)
}.

Inductive Event :=
| Mount
| GetUserMediaResolved (ntracks : nat) (video_attached : bool)
| GetUserMediaRejected
| LoadedMetadata
| SetBackendSettled (ok : bool)
| TfReadySettled (ok : bool)
| CreateDetectorSettled (ok : bool)
| ClickStart (env : TickEnv) (w h : float)
| AnimationFrame (id : nat) (env : TickEnv)
| EstimateFacesResolved (call : nat) (d : Dims float) (faces : list (Box float))
| EstimateFacesRejected (call : nat)
| Unmount (video_attached : bool).

(** The state before the effect runs (lines 27-36). *)
Definition initial : State :=
  {| status := IDLE;
     errorMessage := EmptyString;
     hatPosition := {| top := 0%float; left := 0%float; width := 0%float;
                       height := 0%float;
                       transform := "translate(-50%, -100%)";
                       display := none |};
     animationFrameId := None;
     detectorRef := false;
     initPc := NotStarted;
     mounted := false;
     rafLast := 0;
     pending := [];
     calls := 0;
     inflight := [];
     published := [];
     camera := None;
     srcObject := false;
     canvasSize := (300%float, 150%float);
     drawn := [] |}.

(** Field updates. *)
Definition set_status (v : Status) (s : State) : State :=
  mkState v (errorMessage s) (hatPosition s) (animationFrameId s)
    (detectorRef s) (initPc s) (mounted s) (rafLast s) (pending s) (calls s)
    (inflight s) (published s) (camera s) (srcObject s) (canvasSize s)
    (drawn s).

Definition set_errorMessage (v : string) (s : State) : State :=
  mkState (status s) v (hatPosition s) (animationFrameId s) (detectorRef s)
    (initPc s) (mounted s) (rafLast s) (pending s) (calls s) (inflight s)
    (published s) (camera s) (srcObject s) (canvasSize s) (drawn s).

Definition set_hatPosition (v : HatPosition float) (s : State) : State :=
  mkState (status s) (errorMessage s) v (animationFrameId s) (detectorRef s)
    (initPc s) (mounted s) (rafLast s) (pending s) (calls s) (inflight s)
    (published s) (camera s) (srcObject s) (canvasSize s) (drawn s).

Definition set_animationFrameId (v : option nat) (s : State) : State :=
  mkState (status s) (errorMessage s) (hatPosition s) v (detectorRef s)
    (initPc s) (mounted s) (rafLast s) (pending s) (calls s) (inflight s)
    (published s) (camera s) (srcObject s) (canvasSize s) (drawn s).

Definition set_detectorRef (v : bool) (s : State) : State :=
  mkState (status s) (errorMessage s) (hatPosition s) (animationFrameId s) v
    (initPc s) (mounted s) (rafLast s) (pending s) (calls s) (inflight s)
    (published s) (camera s) (srcObject s) (canvasSize s) (drawn s).

Definition set_initPc (v : InitPc) (s : State) : State :=
  mkState (status s) (errorMessage s) (hatPosition s) (animationFrameId s)
    (detectorRef s) v (mounted s) (rafLast s) (pending s) (calls s)
    (inflight s) (published s) (camera s) (srcObject s) (canvasSize s)
    (drawn s).

Definition set_mounted (v : bool) (s : State) : State :=
  mkState (status s) (errorMessage s) (hatPosition s) (animationFrameId s)
    (detectorRef s) (initPc s) v (rafLast s) (pending s) (calls s)
    (inflight s) (published s) (camera s) (srcObject s) (canvasSize s)
    (drawn s).

Definition set_rafLast (v : nat) (s : State) : State :=
  mkState (status s) (errorMessage s) (hatPosition s) (animationFrameId s)
    (detectorRef s) (initPc s) (mounted s) v (pending s) (calls s)
    (inflight s) (published s) (camera s) (srcObject s) (canvasSize s)
    (drawn s).

Definition set_pending (v : list nat) (s : State) : State :=
  mkState (status s) (errorMessage s) (hatPosition s) (animationFrameId s)
    (detectorRef s) (initPc s) (mounted s) (rafLast s) v (calls s)
    (inflight s) (published s) (camera s) (srcObject s) (canvasSize s)
    (drawn s).

Definition set_calls (v : nat) (s : State) : State :=
  mkState (status s) (errorMessage s) (hatPosition s) (animationFrameId s)
    (detectorRef s) (initPc s) (mounted s) (rafLast s) (pending s) v
    (inflight s) (published s) (camera s) (srcObject s) (canvasSize s)
    (drawn s).

Definition set_inflight (v : list nat) (s : State) : State :=
  mkState (status s) (errorMessage s) (hatPosition s) (animationFrameId s)
    (detectorRef s) (initPc s) (mounted s) (rafLast s) (pending s) (calls s)
    v (published s) (camera s) (srcObject s) (canvasSize s) (drawn s).

Definition set_published (v : list (nat * HatPosition float)) (s : State) : State :=
  mkState (status s) (errorMessage s) (hatPosition s) (animationFrameId s)
    (detectorRef s) (initPc s) (mounted s) (rafLast s) (pending s) (calls s)
    (inflight s) v (camera s) (srcObject s) (canvasSize s) (drawn s).

Definition set_camera (v : option (list nat)) (s : State) : State :=
  mkState (status s) (errorMessage s) (hatPosition s) (animationFrameId s)
    (detectorRef s) (initPc s) (mounted s) (rafLast s) (pending s) (calls s)
    (inflight s) (published s) v (srcObject s) (canvasSize s) (drawn s).

Definition set_srcObject (v : bool) (s : State) : State :=
  mkState (status s) (errorMessage s) (hatPosition s) (animationFrameId s)
    (detectorRef s) (initPc s) (mounted s) (rafLast s) (pending s) (calls s)
    (inflight s) (published s) (camera s) v (canvasSize s) (drawn s).

Definition set_canvasSize (v : float * float) (s : State) : State :=
  mkState (status s) (errorMessage s) (hatPosition s) (animationFrameId s)
    (detectorRef s) (initPc s) (mounted s) (rafLast s) (pending s) (calls s)
    (inflight s) (published s) (camera s) (srcObject s) v (drawn s).

Definition set_drawn (v : list (float * float * float * float)) (s : State) : State :=
  mkState (status s) (errorMessage s) (hatPosition s) (animationFrameId s)
    (detectorRef s) (initPc s) (mounted s) (rafLast s) (pending s) (calls s)
    (inflight s) (published s) (camera s) (srcObject s) (canvasSize s) v.

(** ** The browser's animation frames *)

(** [requestAnimationFrame(detectFace)]: the browser hands out the next
    handle (handles start at 1) and keeps the callback until the frame
    fires or the handle is cancelled. *)
Definition requestAnimationFrame (s : State) : nat * State :=
  let id := S (rafLast s) in
  (id, set_pending (id :: pending s) (set_rafLast id s)).

(** [cancelAnimationFrame(id)]. *)
Definition cancelAnimationFrame (id : nat) (s : State) : State :=
  set_pending (remove Nat.eq_dec id (pending s)) s.

(** [animationFrameId.current = requestAnimationFrame(detectFace)]
    (lines 53 and 104). *)
Definition reschedule (s : State) : State :=
  let (id, s') := requestAnimationFrame s in
  set_animationFrameId (Some id) s'.

(** [if (animationFrameId.current) cancelAnimationFrame(...)] (lines 98-100
    and 153-155).  The test is JavaScript truthiness: [undefined] and [0]
    do not pass. *)
Definition cancelCurrent (s : State) : State :=
  match animationFrameId s with
  | Some (S n) => cancelAnimationFrame (S n) s
  | _ => s
  end.

(** ** [detectFace] (lines 46-105) *)

(** The condition of line 47. *)
Definition readable (s : State) (env : TickEnv) : bool :=
  detectorRef s && video_current env && canvas_current env
  && (readyState env =? 4).

(** From the entry of [detectFace] to its first suspension or return:
    either the call of [estimateFaces] is made (line 58) and the function
    waits for it, or the next frame is requested (lines 53 and 104). *)
Definition detectFace_enter (env : TickEnv) (s : State) : State :=
  if readable s env then
    if negb (ctx_ok env) then reschedule s
    else
      let c := S (calls s) in
      set_inflight (c :: inflight s) (set_calls c s)
  else reschedule s.

(** [setHatPosition]; [c] is the call of [estimateFaces] being continued. *)
Definition setHatPosition (c : nat) (f : HatPosition float -> HatPosition float)
    (s : State) : State :=
  let h := f (hatPosition s) in
  set_published ((c, h) :: published s) (set_hatPosition h s).

(** [ctx.clearRect(0, 0, canvas.width, canvas.height)] (line 61). *)
Definition clearRect (s : State) : State := set_drawn [] s.

(** [ctx.strokeRect(...)] (line 77). *)
Definition strokeRect (r : float * float * float * float) (s : State) : State :=
  set_drawn (drawn s ++ [r]) s.

(** The continuation of call [c] when [estimateFaces] resolves with
    [faces] (lines 59-93, then 104). *)
Definition detectFace_resolved (c : nat) (d : Dims float)
    (faces : list (Box float)) (s : State) : State :=
  let s1 := clearRect s in
  let s2 :=
    match faces with
    | face :: _ =>
        setHatPosition c (fun _ => hatFor d face) (strokeRect (faceRect d face) s1)
    | [] => setHatPosition c hide s1
    end in
  reschedule s2.

(** The continuation of a call when [estimateFaces] throws
    (lines 94-102). *)
Definition detectFace_rejected (s : State) : State :=
  cancelCurrent
    (set_status ERROR
       (set_errorMessage "Đã xảy ra lỗi trong khi nhận diện khuôn mặt." s)).

(** ** [initialize] (lines 108-148) *)

(** Step 2 up to its first [await] (lines 132-134). *)
Definition beginLoad (s : State) : State :=
  set_initPc AwaitSetBackend (set_status LOADING_MODEL s).

(** The [catch] of lines 139-144. *)
Definition loadFailed (s : State) : State :=
  set_initPc Returned
    (set_status ERROR
       (set_errorMessage "Không thể tải mô hình nhận diện. Vui lòng thử lại." s)).

(** The [catch] of lines 124-129. *)
Definition webcamFailed (s : State) : State :=
  set_initPc Returned
    (set_status ERROR
       (set_errorMessage
          "Không thể truy cập webcam. Vui lòng cấp quyền và làm mới trang." s)).

(** Every track of [video.srcObject] is stopped (line 157). *)
Definition stopTracks (s : State) : State :=
  set_camera (option_map (map S) (camera s)) s.

(** The cleanup returned by the effect (lines 152-159). *)
Definition cleanup (video_attached : bool) (s : State) : State :=
  let s1 := cancelCurrent s in
  if video_attached && srcObject s1 then stopTracks s1 else s1.

(** [handleStart] (lines 163-174). *)
Definition handleStart (env : TickEnv) (w h : float) (s : State) : State :=
  if Status_eqb (status s) READY && video_current env && canvas_current env
  then detectFace_enter env (set_status DETECTING (set_canvasSize (w, h) s))
  else s.

(** ** One event *)

Definition step (s : State) (e : Event) : State :=
  match e with
  | Mount =>
      (* the effect runs: initialize() up to the await of line 112 *)
      match initPc s with
      | NotStarted =>
          set_initPc AwaitGetUserMedia
            (set_status INITIALIZING_WEBCAM (set_mounted true s))
      | _ => s
      end
  | GetUserMediaResolved n video_attached =>
      (* lines 116-123, and on to step 2 when there is no video element *)
      match initPc s with
      | AwaitGetUserMedia =>
          let s1 := set_camera (Some (repeat 0 n)) s in
          if video_attached
          then set_initPc AwaitLoadedMetadata (set_srcObject true s1)
          else beginLoad s1
      | _ => s
      end
  | GetUserMediaRejected =>
      match initPc s with
      | AwaitGetUserMedia => webcamFailed s
      | _ => s
      end
  | LoadedMetadata =>
      match initPc s with
      | AwaitLoadedMetadata => beginLoad s
      | _ => s
      end
  | SetBackendSettled ok =>
      (* line 134 *)
      match initPc s with
      | AwaitSetBackend =>
          if ok then set_initPc AwaitTfReady s else loadFailed s
      | _ => s
      end
  | TfReadySettled ok =>
      (* line 135 *)
      match initPc s with
      | AwaitTfReady =>
          if ok then set_initPc AwaitCreateDetector s else loadFailed s
      | _ => s
      end
  | CreateDetectorSettled ok =>
      (* lines 138 and 147 *)
      match initPc s with
      | AwaitCreateDetector =>
          if ok
          then set_initPc Returned (set_status READY (set_detectorRef true s))
          else loadFailed s
      | _ => s
      end
  | ClickStart env w h =>
      (* the button is on the page only while the component is mounted *)
      if mounted s then handleStart env w h s else s
  | AnimationFrame id env =>
      (* the browser runs the callback of a requested frame, once *)
      if existsb (Nat.eqb id) (pending s)
      then detectFace_enter env
             (set_pending (remove Nat.eq_dec id (pending s)) s)
      else s
  | EstimateFacesResolved c d faces =>
      if existsb (Nat.eqb c) (inflight s)
      then detectFace_resolved c d faces
             (set_inflight (remove Nat.eq_dec c (inflight s)) s)
      else s
  | EstimateFacesRejected c =>
      if existsb (Nat.eqb c) (inflight s)
      then detectFace_rejected
             (set_inflight (remove Nat.eq_dec c (inflight s)) s)
      else s
  | Unmount video_attached =>
      if mounted s then cleanup video_attached (set_mounted false s) else s
  end.

(** A run: the events in the order they happen. *)
Definition run (s : State) (es : list Event) : State := fold_left step es s.

(** The states the component can be in. *)
Inductive reachable : State -> Prop :=
| reach_initial : reachable initial
| reach_step s e : reachable s -> reachable (step s e).

(** ** Predicates on states *)

(** The frame source of a tick is readable when the video element is
    there and has enough data (the video part of the test of line 47). *)
Definition sourceReadable (env : TickEnv) : bool :=
  video_current env && (readyState env =? 4).

(** The calls of [estimateFaces] whose continuation published a
    placement, newest first. *)
Definition tags (s : State) : list nat := map fst (published s).

(** What holds in every reachable state. *)
Record Inv (s : State) : Prop := mkInv {
  inv_one : List.length (inflight s) + List.length (pending s) <= 1;
  inv_handle : forall id, In id (pending s) ->
                 animationFrameId s = Some id /\ id <> 0;
  inv_calls : forall c, In c (inflight s) -> c <= calls s;
  inv_tags_lt : forall c t, In c (inflight s) -> In t (tags s) -> t < c;
  inv_tags_le : forall t, In t (tags s) -> t <= calls s;
  inv_sorted : StronglySorted gt (tags s);
  inv_pc : match initPc s with
           | NotStarted =>
               status s = IDLE /\ mounted s = false /\ camera s = None
           | AwaitGetUserMedia =>
               status s = INITIALIZING_WEBCAM /\ camera s = None
           | AwaitLoadedMetadata => status s = INITIALIZING_WEBCAM
           | AwaitSetBackend | AwaitTfReady | AwaitCreateDetector =>
               status s = LOADING_MODEL
           | Returned =>
               status s = READY \/ status s = DETECTING \/ status s = ERROR
           end;
  inv_idle : status s <> DETECTING -> inflight s = [] /\ pending s = [];
  inv_nodet : detectorRef s = false ->
                calls s = 0 /\ published s = [] /\
                status s <> READY /\ status s <> DETECTING;
  inv_det : detectorRef s = true -> initPc s = Returned;
  inv_src : srcObject s = true -> camera s <> None;
  inv_tracks : forall l n, camera s = Some l -> In n l ->
                 n <= 1 /\ (mounted s = true -> n = 0)
}.

(** The status is [ERROR], [initialize] has returned, no frame is
    requested and no call of [estimateFaces] is out. *)
Definition Stopped (s : State) : Prop :=
  status s = ERROR /\ initPc s = Returned /\ pending s = [] /\ inflight s = [].

(** The component is unmounted and [initialize] is past its call of
    [getUserMedia]: from here on nothing touches the tracks (see
    [torn_down_step]). *)
Definition TornDown (s : State) : Prop :=
  mounted s = false /\ initPc s <> NotStarted /\ initPc s <> AwaitGetUserMedia.

(** ** A session used in the examples *)

(** The page as it is while the video plays: both refs set, enough data
    ([readyState] 4), a 2d context. *)
Definition env_ok : TickEnv :=
  {| video_current := true; canvas_current := true;
     readyState := 4; ctx_ok := true |}.

(** The video element before it has enough data ([readyState] 2). *)
Definition env_not_ready : TickEnv :=
  {| video_current := true; canvas_current := true;
     readyState := 2; ctx_ok := true |}.

(** No 2d context. *)
Definition env_no_ctx : TickEnv :=
  {| video_current := true; canvas_current := true;
     readyState := 4; ctx_ok := false |}.

(** A 640x480 stream shown at 672x378. *)
Definition dims0 : Dims float :=
  {| offsetWidth := 672%float; offsetHeight := 378%float;
     videoWidth := 640%float; videoHeight := 480%float |}.

Definition box0 : Box float :=
  {| xMin := 101%float; yMin := 50%float;
     bwidth := 57%float; bheight := 57%float |}.

Definition box1 : Box float :=
  {| xMin := 300%float; yMin := 20%float;
     bwidth := 80%float; bheight := 90%float |}.

(** Webcam and model come up; the status is [READY]. *)
Definition startup : list Event :=
  [ Mount; GetUserMediaResolved 1 true; LoadedMetadata;
    SetBackendSettled true; TfReadySettled true; CreateDetectorSettled true ].

Definition ready_state : State := run initial startup.

(** The user has pressed the button; call 1 of [estimateFaces] is out. *)
Definition detecting_state : State :=
  step ready_state (ClickStart env_ok 672%float 378%float).

(** Call 1 has resolved and frame 1 is requested. *)
Definition waiting_state : State :=
  step detecting_state (EstimateFacesResolved 1 dims0 [box0]).

(** ** What is rendered (lines 38-43 and 176-224) *)

(** The three messages passed to [setErrorMessage]
    (lines 126, 141 and 96). *)
Definition msgWebcam : string :=
  "Không thể truy cập webcam. Vui lòng cấp quyền và làm mới trang.".

Definition msgModel : string :=
  "Không thể tải mô hình nhận diện. Vui lòng thử lại.".

Definition msgDetect : string :=
  "Đã xảy ra lỗi trong khi nhận diện khuôn mặt.".

(** [statusMessages[status]] (lines 38-43 and 211): the object has no
    entry for [IDLE] and [DETECTING]. *)
Definition statusMessages (s : State) : option string :=
  match status s with
  | INITIALIZING_WEBCAM => Some "Đang khởi tạo webcam..."%string
  | LOADING_MODEL => Some "Đang tải mô hình nhận diện..."%string
  | READY => Some "Sẵn sàng! Nhấn Bắt đầu."%string
  | ERROR => Some (errorMessage s)
  | IDLE | DETECTING => None
  end.

(** [showOverlay] (line 176). *)
Definition showOverlay (s : State) : bool :=
  negb (Status_eqb (status s) DETECTING).

(** The button is rendered when [status !== 'DETECTING'] (line 216). *)
Definition buttonRendered (s : State) : bool :=
  negb (Status_eqb (status s) DETECTING).

(** [disabled={status !== 'READY'}] (line 219). *)
Definition buttonDisabled (s : State) : bool :=
  negb (Status_eqb (status s) READY).

(** The text of the button (line 222). *)
Definition buttonLabel (s : State) : string :=
  if Status_eqb (status s) READY then "Bắt đầu"
  else if Status_eqb (status s) ERROR then "Lỗi"
  else "Đang tải...".

(** ** More predicates on states *)

(** The order in which the statuses are gone through. *)
Definition statusRank (k : Status) : nat :=
  match k with
  | IDLE => 0
  | INITIALIZING_WEBCAM => 1
  | LOADING_MODEL => 2
  | READY => 3
  | DETECTING => 4
  | ERROR => 5
  end.

(** What the page shows and what the counters count, in every reachable
    state. *)
Record Shown (s : State) : Prop := mkShown {
  sh_square : height (hatPosition s) = width (hatPosition s);
  sh_last : match published s with
            | [] => hatPosition s = hatPosition initial
            | (_, h) :: _ => hatPosition s = h
            end;
  sh_canvas : (drawn s = [] /\ display (hatPosition s) = none) \/
              (exists d b, drawn s = [faceRect d b] /\
                           hatPosition s = hatFor d b);
  sh_message : match status s with
               | ERROR => errorMessage s = msgWebcam \/
                          errorMessage s = msgModel \/
                          errorMessage s = msgDetect
               | _ => errorMessage s = EmptyString
               end;
  sh_stream : match initPc s with
              | NotStarted | AwaitGetUserMedia | Returned => True
              | _ => camera s <> None
              end;
  sh_detector : detectorRef s = true -> camera s <> None;
  sh_fresh : statusRank (status s) <= 3 -> calls s = 0;
  sh_count : calls s =
             List.length (published s) + List.length (inflight s) +
             (if Status_eqb (status s) ERROR && detectorRef s then 1 else 0)
}.

(** While the component is mounted and the status is [DETECTING], the
    loop holds exactly one thing: a requested frame or a call in flight. *)
Definition Alive (s : State) : Prop :=
  status s = DETECTING -> mounted s = true ->
  List.length (inflight s) + List.length (pending s) = 1.

(** The component is unmounted and the loop holds neither a requested
    frame nor a call in flight. *)
Definition Dead (s : State) : Prop :=
  mounted s = false /\ initPc s <> NotStarted /\
  pending s = [] /\ inflight s = [].

(** The events of a tick that sees no face: an animation frame, or a
    call of [estimateFaces] resolving with the empty list. *)
Definition faceless (e : Event) : bool :=
  match e with
  | AnimationFrame _ _ => true
  | EstimateFacesResolved _ _ [] => true
  | _ => false
  end.

(** A failure of one of the three awaited steps of the model loading
    (lines 134, 135 and 138), at the point where it is awaited. *)
Definition loadFailure (s : State) (e : Event) : bool :=
  match initPc s, e with
  | AwaitSetBackend, SetBackendSettled false => true
  | AwaitTfReady, TfReadySettled false => true
  | AwaitCreateDetector, CreateDetectorSettled false => true
  | _, _ => false
  end.

(** A session torn down while [getUserMedia] is still pending. *)
Definition early_teardown : State := run initial [Mount; Unmount true].

(** Every event but [loadedmetadata]. *)
Definition notLoadedMetadata (e : Event) : bool :=
  match e with
  | LoadedMetadata => false
  | _ => true
  end.

(** ** Basic facts *)

Lemma reachable_run s es : reachable s -> reachable (run s es).
Proof.
  revert s. induction es as [|e es IH]; intros s Hs; simpl.
  - exact Hs.
  - apply IH. now constructor.
Qed.

Lemma existsb_eqb_In (x : nat) (l : list nat) :
  existsb (Nat.eqb x) l = true <-> In x l.
Proof.
  rewrite existsb_exists. split.
  - intros [y [Hy Heq]]. apply Nat.eqb_eq in Heq. now subst.
  - intros Hx. exists x. split; [assumption | apply Nat.eqb_refl].
Qed.

Lemma float_neq (a b : float) : PrimFloat.eqb a b = false ->
  PrimFloat.eqb b b = true -> a <> b.
Proof. intros Hab Hbb Heq. rewrite Heq in Hab. congruence. Qed.

(** ** Invariants of the reachable states *)

Lemma inv_initial : Inv initial.
Proof.
  constructor; simpl;
    solve [ lia | constructor | intros ? [] | intros ? ? []
          | intros; discriminate | repeat split; (reflexivity || discriminate) ].
Qed.

Lemma one_in_flight (inf pen : list nat) (c : nat) :
  List.length inf + List.length pen <= 1 -> In c inf -> inf = [c] /\ pen = [].
Proof.
  destruct inf as [|x [|y inf]]; simpl; intros Hlen Hc.
  - contradiction.
  - destruct pen; simpl in Hlen; [|lia]. destruct Hc as [->|[]]. auto.
  - lia.
Qed.

Lemma one_pending (inf pen : list nat) (id : nat) :
  List.length inf + List.length pen <= 1 -> In id pen -> pen = [id] /\ inf = [].
Proof.
  intros Hlen Hid. rewrite Nat.add_comm in Hlen.
  apply (one_in_flight _ _ _ Hlen Hid).
Qed.

Lemma remove_single (x : nat) : remove Nat.eq_dec x [x] = [].
Proof. simpl. destruct (Nat.eq_dec x x); congruence. Qed.

(** Requesting the next frame when nothing is pending or in flight. *)
Lemma inv_reschedule (s : State) :
  Inv s -> status s = DETECTING -> inflight s = [] -> pending s = [] ->
  Inv (reschedule s).
Proof.
  intros I Hst Hinf Hpen. destruct I. unfold reschedule; simpl.
  constructor; simpl; auto.
  - rewrite Hinf, Hpen. simpl. lia.
  - rewrite Hpen. intros id [<-|[]]. split; [reflexivity | discriminate].
  - intros Hn. congruence.
Qed.

(** Entering [detectFace] when nothing is pending or in flight. *)
Lemma inv_detectFace_enter (env : TickEnv) (s : State) :
  Inv s -> status s = DETECTING -> inflight s = [] -> pending s = [] ->
  Inv (detectFace_enter env s).
Proof.
  intros I Hst Hinf Hpen. unfold detectFace_enter.
  destruct (readable s env) eqn:Hr; [destruct (ctx_ok env); simpl |];
    try (apply inv_reschedule; assumption).
  assert (Hdet : detectorRef s = true).
  { unfold readable in Hr. destruct (detectorRef s); [reflexivity | discriminate]. }
  destruct I. constructor; simpl; auto.
  - rewrite Hinf, Hpen. simpl. lia.
  - rewrite Hinf. intros c [<-|[]]. lia.
  - rewrite Hinf. intros c t [<-|[]] Ht. apply inv_tags_le0 in Ht. lia.
  - intros Hn. congruence.
  - congruence.
Qed.

(** The cleanup, run once the component is no longer mounted. *)
Lemma inv_cleanup (va : bool) (s : State) :
  Inv s -> mounted s = false ->
  (forall l n, camera s = Some l -> In n l -> n = 0) ->
  Inv (cleanup va s).
Proof.
  intros I Hm Hzero. unfold cleanup.
  assert (I1 : Inv (cancelCurrent s)).
  { unfold cancelCurrent.
    destruct (animationFrameId s) as [[|k]|]; try exact I.
    unfold cancelAnimationFrame.
    assert (Hsub : forall i, In i (remove Nat.eq_dec (S k) (pending s)) ->
                             In i (pending s))
      by (intros i Hi; apply in_remove in Hi; tauto).
    pose proof (remove_length_le Nat.eq_dec (pending s) (S k)) as Hlen.
    destruct I; constructor; simpl; auto.
    - lia.
    - intros Hn. destruct (inv_idle0 Hn) as [Hi Hp]. rewrite Hp. auto. }
  assert (Hcam : camera (cancelCurrent s) = camera s).
  { unfold cancelCurrent. destruct (animationFrameId s) as [[|k]|]; reflexivity. }
  assert (Hmo : mounted (cancelCurrent s) = mounted s).
  { unfold cancelCurrent. destruct (animationFrameId s) as [[|k]|]; reflexivity. }
  destruct (va && srcObject (cancelCurrent s)); [|exact I1].
  unfold stopTracks. rewrite Hcam.
  destruct I1; constructor; simpl; auto.
  - rewrite Hcam in inv_pc0.
    destruct (initPc (cancelCurrent s)); auto;
      destruct (camera s); simpl; intuition congruence.
  - intros Hs. specialize (inv_src0 Hs). rewrite Hcam in inv_src0.
    destruct (camera s); simpl; congruence.
  - intros l n Hl Hn. destruct (camera s) as [l0|] eqn:Hc; simpl in Hl; [|discriminate].
    injection Hl as <-. apply in_map_iff in Hn. destruct Hn as [m [<- Hmem]].
    rewrite (Hzero l0 m eq_refl Hmem). split; [lia | congruence].
Qed.

(** The events of [initialize]: the loop has not started, and only the
    status, the program point, the detector and the camera change. *)
Ltac init_event I Hpc :=
  let P := fresh "P" in let D := fresh "D" in
  let L := fresh "L" in let N := fresh "N" in
  pose proof (inv_pc I) as P; rewrite Hpc in P;
  pose proof (inv_det I) as D; pose proof (inv_idle I) as L;
  pose proof (inv_nodet I) as N;
  destruct I; constructor; simpl; auto;
  solve
    [ intuition congruence
    | intros _; apply L; intuition congruence
    | let Hd := fresh in
      intros Hd; destruct (N Hd) as [? [? [? ?]]];
      repeat split; auto; discriminate
    | let Hd := fresh in intros Hd; specialize (D Hd); congruence
    | let Hl := fresh in let Hn := fresh in
      intros ? ? Hl Hn; injection Hl as <-; apply repeat_spec in Hn;
      subst; split; [lia | reflexivity] ].

Lemma inv_step (s : State) (e : Event) : Inv s -> Inv (step s e).
Proof.
  intros I. destruct e; simpl.
  - (* Mount *)
    destruct (initPc s) eqn:Hpc; try exact I. init_event I Hpc.
  - (* GetUserMediaResolved *)
    destruct (initPc s) eqn:Hpc; try exact I.
    destruct video_attached; unfold beginLoad; init_event I Hpc.
  - (* GetUserMediaRejected *)
    destruct (initPc s) eqn:Hpc; try exact I.
    unfold webcamFailed; init_event I Hpc.
  - (* LoadedMetadata *)
    destruct (initPc s) eqn:Hpc; try exact I.
    unfold beginLoad; init_event I Hpc.
  - (* SetBackendSettled *)
    destruct (initPc s) eqn:Hpc; try exact I.
    destruct ok; unfold loadFailed; init_event I Hpc.
  - (* TfReadySettled *)
    destruct (initPc s) eqn:Hpc; try exact I.
    destruct ok; unfold loadFailed; init_event I Hpc.
  - (* CreateDetectorSettled *)
    destruct (initPc s) eqn:Hpc; try exact I.
    destruct ok; unfold loadFailed; init_event I Hpc.
  - (* ClickStart *)
    destruct (mounted s); [|exact I]. unfold handleStart.
    destruct (Status_eqb (status s) READY) eqn:Hst; simpl; [|exact I].
    destruct (video_current env); simpl; [|exact I].
    destruct (canvas_current env); simpl; [|exact I].
    assert (Hready : status s = READY) by (destruct (status s); simpl in Hst; congruence).
    assert (Hnd : status s <> DETECTING) by congruence.
    destruct (inv_idle I Hnd) as [Hinf Hpen].
    apply inv_detectFace_enter; simpl; auto.
    pose proof (inv_pc I) as P. pose proof (inv_det I) as D.
    pose proof (inv_nodet I) as N.
    destruct I; constructor; simpl; auto.
    + destruct (initPc s); intuition congruence.
    + intros Hd. destruct (N Hd) as [? [? [? ?]]]. congruence.
  - (* AnimationFrame *)
    destruct (existsb (Nat.eqb id) (pending s)) eqn:Hid; [|exact I].
    apply existsb_eqb_In in Hid.
    destruct (one_pending _ _ _ (inv_one I) Hid) as [Hpen Hinf].
    assert (Hst : status s = DETECTING).
    { destruct (status s) eqn:E; try reflexivity;
        destruct (inv_idle I) as [_ Hp]; congruence. }
    rewrite Hpen, remove_single.
    apply inv_detectFace_enter; simpl; auto.
    destruct I; constructor; simpl; auto.
    + rewrite Hinf; simpl; lia.
    + intros ? [].
  - (* EstimateFacesResolved *)
    destruct (existsb (Nat.eqb call) (inflight s)) eqn:Hc; [|exact I].
    apply existsb_eqb_In in Hc.
    destruct (one_in_flight _ _ _ (inv_one I) Hc) as [Hinf Hpen].
    assert (Hst : status s = DETECTING).
    { destruct (status s) eqn:E; try reflexivity;
        destruct (inv_idle I) as [Hi _]; congruence. }
    rewrite Hinf, remove_single.
    assert (Hdet : detectorRef s = true).
    { destruct (detectorRef s) eqn:E; [reflexivity|].
      destruct (inv_nodet I E) as [_ [_ [_ ?]]]. congruence. }
    unfold detectFace_resolved.
    apply inv_reschedule; [| destruct faces; simpl; auto ..].
    assert (Hlt : forall t, In t (tags s) -> t < call)
      by (intros t Ht; apply (inv_tags_lt I call t); assumption).
    assert (Hle : call <= calls s) by (apply (inv_calls I); assumption).
    assert (Hsorted : StronglySorted gt (call :: tags s)).
    { constructor; [apply (inv_sorted I)|]. apply Forall_forall.
      intros t Ht. apply Hlt in Ht. lia. }
    destruct faces; unfold setHatPosition, tags; simpl;
      destruct I; constructor; simpl; auto;
      try (rewrite Hpen; simpl; lia);
      try (intros ? []; fail);
      try (intros ? ? []; fail);
      try (intros t [<-|Ht]; [assumption | auto]);
      try (intros; congruence).
  - (* EstimateFacesRejected *)
    destruct (existsb (Nat.eqb call) (inflight s)) eqn:Hc; [|exact I].
    apply existsb_eqb_In in Hc.
    destruct (one_in_flight _ _ _ (inv_one I) Hc) as [Hinf Hpen].
    assert (Hst : status s = DETECTING).
    { destruct (status s) eqn:E; try reflexivity;
        destruct (inv_idle I) as [Hi _]; congruence. }
    assert (Hdet : detectorRef s = true).
    { destruct (detectorRef s) eqn:E; [reflexivity|].
      destruct (inv_nodet I E) as [_ [_ [_ ?]]]. congruence. }
    pose proof (inv_pc I) as P. rewrite (inv_det I Hdet) in P.
    rewrite Hinf, remove_single.
    unfold detectFace_rejected, cancelCurrent; simpl.
    destruct (animationFrameId s) as [[|n]|] eqn:Ha; simpl;
      unfold cancelAnimationFrame; simpl; rewrite ?Hpen; simpl;
      destruct I; constructor; simpl; auto;
      try (rewrite ?Hpen; simpl; lia);
      try (intros ? []; fail);
      try (intros ? ? []; fail);
      try (rewrite ?Hpen; simpl; intros ? []; fail);
      try (rewrite (inv_det0 Hdet); auto);
      try (intros; congruence).
  - (* Unmount *)
    destruct (mounted s) eqn:Hm; [|exact I].
    pose proof (inv_tracks I) as T.
    apply inv_cleanup; [| reflexivity |].
    + destruct I; constructor; simpl; auto.
      * destruct (initPc s); intuition congruence.
      * intros l n Hl Hn. destruct (T l n Hl Hn) as [H1 _].
        split; [exact H1 | discriminate].
    + simpl. intros l n Hl Hn. destruct (T l n Hl Hn) as [_ H0]. auto.
Qed.

Lemma reachable_inv (s : State) : reachable s -> Inv s.
Proof.
  induction 1 as [|s e _ IH]; [apply inv_initial | apply inv_step, IH].
Qed.

(** ** The placement (lines 63-90) *)

(** In exact arithmetic the centre computed by the code,
    [xMin * scaleX + (width * scaleX) / 2], is [(xMin + width / 2) * scaleX]. *)
Lemma hatFor_left_exact (d : Dims Q) (b : Box Q) :
  (left (hatFor d b) == (xMin b + bwidth b / (2 # 1)) * scaleX d)%Q.
Proof.
  unfold hatFor. cbv [left]. generalize (scaleX d) as k. intro k.
  cbv [nadd nmul ndiv lit_2 Q_arith]. field.
Qed.

(** C1, as stated, fails in the arithmetic the code runs in: for the box
    [box0] on a 640x480 stream shown at 672x378, all of whose numbers
    satisfy the claim's conditions, the published [left] is
    135.97500000000002 while [(xMin + width / 2) * scaleX] is 135.975. *)
Lemma placement_left_rounding :
  let p := hatPosition (step detecting_state
                          (EstimateFacesResolved 1 dims0 [box0])) in
  PrimFloat.leb 0 (xMin box0) = true /\ PrimFloat.leb 0 (yMin box0) = true /\
  PrimFloat.leb 0 (bwidth box0) = true /\ PrimFloat.leb 0 (bheight box0) = true /\
  PrimFloat.ltb 0 (videoWidth dims0) = true /\
  PrimFloat.ltb 0 (videoHeight dims0) = true /\
  left p = 0x1.0ff3333333334p+7%float /\
  ((xMin box0 + bwidth box0 / 2) * scaleX dims0)%float
    = 0x1.0ff3333333333p+7%float /\
  left p <> ((xMin box0 + bwidth box0 / 2) * scaleX dims0)%float.
Proof.
  repeat (split; [vm_compute; reflexivity |]).
  apply float_neq; vm_compute; reflexivity.
Qed.

(** C1 (amended): when a call of [estimateFaces] resolves with at least
    one box, the published placement has
    [left = xMin * scaleX + (width * scaleX) / 2],
    [top = yMin * scaleY], [width = (width * scaleX) * 1.5] with
    [1.5 > 1], and [height] equal to that [width], all in double
    arithmetic, where [scaleX = offsetWidth / videoWidth] and
    [scaleY = offsetHeight / videoHeight]. *)
Theorem placement_formulas (s : State) (c : nat) (d : Dims float)
    (b : Box float) (rest : list (Box float)) :
  In c (inflight s) ->
  PrimFloat.leb 0 (xMin b) = true -> PrimFloat.leb 0 (yMin b) = true ->
  PrimFloat.leb 0 (bwidth b) = true -> PrimFloat.leb 0 (bheight b) = true ->
  PrimFloat.ltb 0 (videoWidth d) = true ->
  PrimFloat.ltb 0 (videoHeight d) = true ->
  let sx := (offsetWidth d / videoWidth d)%float in
  let sy := (offsetHeight d / videoHeight d)%float in
  let p := hatPosition (step s (EstimateFacesResolved c d (b :: rest))) in
  left p = (xMin b * sx + (bwidth b * sx) / 2)%float /\
  top p = (yMin b * sy)%float /\
  width p = ((bwidth b * sx) * 1.5)%float /\
  height p = width p /\
  PrimFloat.ltb 1 1.5 = true /\
  display p = block.
Proof.
  intros Hc _ _ _ _ _ _ sx sy p. subst p. simpl.
  apply existsb_eqb_In in Hc. rewrite Hc.
  repeat split.
Qed.

Lemma placement_formulas_witness :
  In 1 (inflight detecting_state) /\
  PrimFloat.leb 0 (xMin box0) = true /\ PrimFloat.ltb 0 (videoWidth dims0) = true /\
  let p := hatPosition waiting_state in
  left p = 0x1.0ff3333333334p+7%float /\   (* 135.97500000000002 *)
  top p = 39.375%float /\
  width p = 0x1.671999999999ap+6%float /\  (* 89.775000000000006 *)
  height p = width p.
Proof.
  assert (Hin : In 1 (inflight detecting_state)) by (vm_compute; auto).
  pose proof (@placement_formulas detecting_state 1 dims0 box0 [] Hin
                eq_refl eq_refl eq_refl eq_refl eq_refl eq_refl) as H.
  cbv zeta in H. destruct H as [Hl [Ht [Hw [Hh _]]]].
  split; [exact Hin |]. split; [reflexivity |]. split; [reflexivity |].
  unfold waiting_state. cbv zeta.
  rewrite Hl, Hh, Hw, Ht. vm_compute. repeat split.
Defined.

(** ** One tick *)

(** What requesting the next frame changes and what it leaves as it is. *)
Lemma reschedule_fields (s : State) :
  calls (reschedule s) = calls s /\
  inflight (reschedule s) = inflight s /\
  published (reschedule s) = published s /\
  hatPosition (reschedule s) = hatPosition s /\
  status (reschedule s) = status s /\
  errorMessage (reschedule s) = errorMessage s /\
  pending (reschedule s) = S (rafLast s) :: pending s /\
  animationFrameId (reschedule s) = Some (S (rafLast s)).
Proof. unfold reschedule; simpl. repeat split. Qed.

(** C3: when a call of [estimateFaces] resolves with the empty list, the
    published placement has [display = none] (it is not visible), and its
    [left], [top], [width], [height] and [transform] are those of the
    placement before. *)
Theorem no_face_hides_and_keeps_geometry (s : State) (c : nat) (d : Dims float) :
  In c (inflight s) ->
  let s' := step s (EstimateFacesResolved c d []) in
  display (hatPosition s') = none /\
  left (hatPosition s') = left (hatPosition s) /\
  top (hatPosition s') = top (hatPosition s) /\
  width (hatPosition s') = width (hatPosition s) /\
  height (hatPosition s') = height (hatPosition s) /\
  transform (hatPosition s') = transform (hatPosition s) /\
  published s' = (c, hatPosition s') :: published s.
Proof.
  intros Hc. apply existsb_eqb_In in Hc. simpl. rewrite Hc.
  simpl. repeat split.
Qed.

Lemma no_face_hides_and_keeps_geometry_witness :
  In 2 (inflight (step waiting_state (AnimationFrame 1 env_ok))) /\
  let s := step waiting_state (AnimationFrame 1 env_ok) in
  let s' := step s (EstimateFacesResolved 2 dims0 []) in
  display (hatPosition s') = none /\
  left (hatPosition s') = 0x1.0ff3333333334p+7%float /\
  top (hatPosition s') = 39.375%float.
Proof.
  assert (Hin : In 2 (inflight (step waiting_state (AnimationFrame 1 env_ok))))
    by (vm_compute; auto).
  split; [exact Hin |].
  destruct (@no_face_hides_and_keeps_geometry _ 2 dims0 Hin)
    as [Hd [Hl [Ht _]]].
  cbv zeta. rewrite Hd, Hl, Ht. vm_compute. repeat split.
Defined.

(** C4: when a call of [estimateFaces] resolves with one or more boxes,
    only the box at index 0 matters: the published placement is the one
    computed from that box, and two result lists with the same first box
    give the same published placement (indeed the same state: the same
    record of publications, the same canvas, the same next frame). *)
Theorem only_first_box_used (s : State) (c : nat) (d : Dims float)
    (b : Box float) (rest1 rest2 : list (Box float)) :
  In c (inflight s) ->
  hatPosition (step s (EstimateFacesResolved c d (b :: rest1))) = hatFor d b /\
  hatPosition (step s (EstimateFacesResolved c d (b :: rest1))) =
  hatPosition (step s (EstimateFacesResolved c d (b :: rest2))) /\
  step s (EstimateFacesResolved c d (b :: rest1)) =
  step s (EstimateFacesResolved c d (b :: rest2)).
Proof.
  intros Hc. apply existsb_eqb_In in Hc. simpl. rewrite Hc.
  repeat split.
Qed.

Lemma only_first_box_used_witness :
  In 1 (inflight detecting_state) /\
  hatPosition (step detecting_state
                 (EstimateFacesResolved 1 dims0 [box0; box1])) =
  hatPosition (step detecting_state
                 (EstimateFacesResolved 1 dims0 [box0; box0; box0])).
Proof.
  assert (Hin : In 1 (inflight detecting_state)) by (vm_compute; auto).
  split; [exact Hin |].
  exact (proj1 (proj2 (@only_first_box_used detecting_state 1 dims0 box0
                         [box1] [box0; box0] Hin))).
Defined.

(** ** Ticks that do not detect *)

Lemma readable_source (s : State) (env : TickEnv) :
  sourceReadable env = false -> readable s env = false.
Proof.
  unfold sourceReadable, readable. intros H.
  destruct (detectorRef s), (video_current env), (canvas_current env);
    simpl in *; congruence.
Qed.

(** C5, as stated, fails: the first tick of a started loop finds the video
    without enough data ([readyState] 2); the loop is not stopped, frame 1
    is requested and the status stays [DETECTING]; when that frame fires
    with the video ready, the detector is called. *)
Lemma unreadable_source_is_not_fatal :
  let s := step ready_state (ClickStart env_not_ready 672%float 378%float) in
  sourceReadable env_not_ready = false /\
  status s = DETECTING /\ pending s = [1] /\ animationFrameId s = Some 1 /\
  calls s = 0 /\
  calls (step s (AnimationFrame 1 env_ok)) = 1.
Proof. vm_compute. repeat split. Qed.

(** C5 (amended): on a tick on which the frame source is not readable,
    the loop makes no call of the detector, publishes nothing, keeps its
    status and error message, and requests the next frame.  This is so
    for every run of [detectFace], and in particular when it runs as the
    callback of an animation frame. *)
Theorem unreadable_source_skips_and_reschedules (s : State) (env : TickEnv) :
  sourceReadable env = false ->
  (let s' := detectFace_enter env s in
   calls s' = calls s /\ inflight s' = inflight s /\
   published s' = published s /\ hatPosition s' = hatPosition s /\
   status s' = status s /\ errorMessage s' = errorMessage s /\
   pending s' = S (rafLast s) :: pending s /\
   animationFrameId s' = Some (S (rafLast s))) /\
  (forall id, In id (pending s) ->
   let s' := step s (AnimationFrame id env) in
   calls s' = calls s /\ inflight s' = inflight s /\
   published s' = published s /\ hatPosition s' = hatPosition s /\
   status s' = status s /\ errorMessage s' = errorMessage s /\
   pending s' = S (rafLast s) :: remove Nat.eq_dec id (pending s) /\
   animationFrameId s' = Some (S (rafLast s))).
Proof.
  intros Hsrc. split.
  - unfold detectFace_enter. rewrite readable_source by exact Hsrc.
    apply reschedule_fields.
  - intros id Hid. apply existsb_eqb_In in Hid. simpl. rewrite Hid.
    unfold detectFace_enter. rewrite readable_source by exact Hsrc.
    exact (reschedule_fields (set_pending (remove Nat.eq_dec id (pending s)) s)).
Qed.

Lemma unreadable_source_skips_and_reschedules_witness :
  sourceReadable env_not_ready = false /\ In 1 (pending waiting_state) /\
  let s' := step waiting_state (AnimationFrame 1 env_not_ready) in
  calls s' = 1 /\ status s' = DETECTING /\ pending s' = [2] /\
  animationFrameId s' = Some 2.
Proof.
  assert (Hin : In 1 (pending waiting_state)) by (vm_compute; auto).
  split; [reflexivity |]. split; [exact Hin |].
  destruct (proj2 (@unreadable_source_skips_and_reschedules waiting_state
                     env_not_ready eq_refl) 1 Hin)
    as [Hc [_ [_ [_ [Hs [_ [Hp Ha]]]]]]].
  cbv zeta. rewrite Hc, Hs, Hp, Ha. vm_compute. repeat split.
Defined.

(** C10, as stated, fails in its last clause: the tick that finds the
    source unreadable is not fatal, and it is not a different path in what
    it does.  With frame 1 requested, the frame that finds no 2d context
    and the frame that finds the video without enough data lead to the
    same state: status [DETECTING], no call made, frame 2 requested. *)
Lemma no_context_same_as_unreadable_source :
  ctx_ok env_no_ctx = false /\ sourceReadable env_no_ctx = true /\
  sourceReadable env_not_ready = false /\
  step waiting_state (AnimationFrame 1 env_no_ctx) =
  step waiting_state (AnimationFrame 1 env_not_ready) /\
  let s' := step waiting_state (AnimationFrame 1 env_not_ready) in
  status s' = DETECTING /\ pending s' = [2] /\ calls s' = calls waiting_state.
Proof. vm_compute. repeat split. Qed.

(** C10 (amended): on a tick on which [getContext] gives no context, no
    call of the detector is made, nothing is published, the status and
    the error message are unchanged (so no error state is entered) and
    the next frame is requested.  This is so for every run of
    [detectFace], whatever else the tick finds, and in particular when it
    runs as the callback of an animation frame.  It is not the path of a
    failing detection: a rejected call sets the status to [ERROR] and
    requests no frame.  It does exactly what a tick does that finds the
    source unreadable, which is not fatal either. *)
Theorem no_context_drops_the_tick (s : State) (env : TickEnv) :
  ctx_ok env = false ->
  (let s' := detectFace_enter env s in
   calls s' = calls s /\ inflight s' = inflight s /\
   published s' = published s /\ hatPosition s' = hatPosition s /\
   status s' = status s /\ errorMessage s' = errorMessage s /\
   pending s' = S (rafLast s) :: pending s /\
   animationFrameId s' = Some (S (rafLast s))) /\
  (forall id, In id (pending s) ->
   let s' := step s (AnimationFrame id env) in
   calls s' = calls s /\ inflight s' = inflight s /\
   published s' = published s /\ hatPosition s' = hatPosition s /\
   status s' = status s /\ errorMessage s' = errorMessage s /\
   pending s' = S (rafLast s) :: remove Nat.eq_dec id (pending s) /\
   animationFrameId s' = Some (S (rafLast s))) /\
  (forall c, In c (inflight s) ->
   let f := step s (EstimateFacesRejected c) in
   status f = ERROR /\ rafLast f = rafLast s /\
   forall i, In i (pending f) -> In i (pending s)) /\
  (forall env', sourceReadable env' = false ->
   detectFace_enter env s = detectFace_enter env' s /\
   forall id, step s (AnimationFrame id env) = step s (AnimationFrame id env')).
Proof.
  intros Hctx. split; [|split; [|split]].
  - unfold detectFace_enter. rewrite Hctx. simpl.
    destruct (readable s env); apply reschedule_fields.
  - intros id Hid. apply existsb_eqb_In in Hid. simpl. rewrite Hid.
    unfold detectFace_enter. rewrite Hctx. simpl.
    destruct (readable _ env);
      exact (reschedule_fields (set_pending (remove Nat.eq_dec id (pending s)) s)).
  - intros c Hc. apply existsb_eqb_In in Hc. simpl. rewrite Hc.
    unfold detectFace_rejected, cancelCurrent; simpl.
    destruct (animationFrameId s) as [[|n]|]; simpl; repeat split; auto.
    intros i Hi. apply in_remove in Hi. tauto.
  - intros env' Hsrc. split.
    + unfold detectFace_enter. rewrite Hctx. simpl.
      rewrite (readable_source s env' Hsrc).
      destruct (readable s env); reflexivity.
    + intros id. simpl.
      destruct (existsb (Nat.eqb id) (pending s)); [|reflexivity].
      unfold detectFace_enter. rewrite Hctx. simpl.
      rewrite (readable_source _ env' Hsrc).
      destruct (readable _ env); reflexivity.
Qed.

Lemma no_context_drops_the_tick_witness :
  ctx_ok env_no_ctx = false /\ In 1 (pending waiting_state) /\
  let s' := step waiting_state (AnimationFrame 1 env_no_ctx) in
  calls s' = 1 /\ status s' = DETECTING /\ pending s' = [2] /\
  published s' = published waiting_state.
Proof.
  assert (Hin : In 1 (pending waiting_state)) by (vm_compute; auto).
  split; [reflexivity |]. split; [exact Hin |].
  destruct (proj1 (proj2 (@no_context_drops_the_tick waiting_state
                            env_no_ctx eq_refl)) 1 Hin)
    as [Hc [_ [Hpub [_ [Hs [_ [Hp _]]]]]]].
  cbv zeta. rewrite Hc, Hs, Hp, Hpub. vm_compute. repeat split.
Defined.

(** ** After the loop has stopped on an error *)

Lemma stopped_step (s : State) (e : Event) :
  Stopped s ->
  Stopped (step s e) /\
  calls (step s e) = calls s /\ rafLast (step s e) = rafLast s /\
  detectorRef (step s e) = detectorRef s /\
  published (step s e) = published s /\
  hatPosition (step s e) = hatPosition s /\
  errorMessage (step s e) = errorMessage s.
Proof.
  unfold Stopped. intros [Hst [Hpc [Hpen Hinf]]].
  destruct e; simpl; rewrite ?Hpc, ?Hpen, ?Hinf; simpl; auto 10.
  - (* ClickStart *)
    unfold handleStart. rewrite Hst. simpl. destruct (mounted s); auto 10.
  - (* Unmount *)
    destruct (mounted s); auto 10.
    unfold cleanup, cancelCurrent; simpl.
    destruct (animationFrameId s) as [[|k]|]; simpl;
      destruct (video_attached && srcObject s); simpl; rewrite ?Hpen; simpl;
      auto 10.
Qed.

Lemma stopped_run (s : State) (es : list Event) :
  Stopped s ->
  Stopped (run s es) /\
  calls (run s es) = calls s /\ rafLast (run s es) = rafLast s /\
  detectorRef (run s es) = detectorRef s /\
  published (run s es) = published s /\
  hatPosition (run s es) = hatPosition s /\
  errorMessage (run s es) = errorMessage s.
Proof.
  revert s. induction es as [|e es IH]; intros s Hs; simpl.
  - auto 10.
  - destruct (stopped_step e Hs) as [Hs' [E1 [E2 [E3 [E4 [E5 E6]]]]]].
    destruct (IH _ Hs') as [Hr [F1 [F2 [F3 [F4 [F5 F6]]]]]].
    repeat split; try apply Hr; congruence.
Qed.

(** C2: when a call of [estimateFaces] fails, the status becomes [ERROR]
    with the error message of line 96, no frame is left requested and
    none is requested by the failing tick; from then on, whatever
    happens, the status stays [ERROR], no call of [estimateFaces] is made
    and no frame is requested. *)
Theorem detection_failure_stops_the_loop (s : State) (c : nat) :
  reachable s -> In c (inflight s) ->
  let s' := step s (EstimateFacesRejected c) in
  status s' = ERROR /\
  errorMessage s' = "Đã xảy ra lỗi trong khi nhận diện khuôn mặt."%string /\
  pending s' = [] /\ inflight s' = [] /\ rafLast s' = rafLast s /\
  forall es,
    let s'' := run s' es in
    status s'' = ERROR /\ calls s'' = calls s /\ rafLast s'' = rafLast s /\
    pending s'' = [] /\ inflight s'' = [] /\ published s'' = published s.
Proof.
  intros Hr Hc s'. pose proof (reachable_inv Hr) as I.
  destruct (one_in_flight _ _ _ (inv_one I) Hc) as [Hinf Hpen].
  assert (Hdet : detectorRef s = true).
  { destruct (detectorRef s) eqn:E; [reflexivity|].
    destruct (inv_nodet I E) as [_ [_ [_ Hnd]]].
    destruct (inv_idle I) as [Hi _]; [|congruence].
    intros Hd. apply Hnd. exact Hd. }
  pose proof (inv_det I Hdet) as Hpc.
  assert (Hs' : status s' = ERROR /\
                errorMessage s' = "Đã xảy ra lỗi trong khi nhận diện khuôn mặt."%string /\
                pending s' = [] /\ inflight s' = [] /\ rafLast s' = rafLast s /\
                initPc s' = Returned /\ calls s' = calls s /\
                published s' = published s).
  { subst s'. simpl. apply existsb_eqb_In in Hc. rewrite Hc.
    rewrite Hinf, remove_single.
    unfold detectFace_rejected, cancelCurrent; simpl.
    destruct (animationFrameId s) as [[|k]|]; simpl; rewrite ?Hpen; simpl;
      auto 10. }
  destruct Hs' as [H1 [H2 [H3 [H4 [H5 [H6 [H7 H8]]]]]]].
  repeat split; auto.
  all: destruct (@stopped_run s' es) as [[S1 [S2 [S3 S4]]] [E1 [E2 [E3 [E4 _]]]]];
    [unfold Stopped; auto | congruence].
Qed.

Lemma detection_failure_stops_the_loop_witness :
  reachable detecting_state /\ In 1 (inflight detecting_state) /\
  let s' := step detecting_state (EstimateFacesRejected 1) in
  status s' = ERROR /\ pending s' = [] /\
  calls (run s' [AnimationFrame 1 env_ok;
                 ClickStart env_ok 672%float 378%float]) = 1.
Proof.
  assert (Hr : reachable detecting_state).
  { unfold detecting_state, ready_state. constructor.
    apply reachable_run. constructor. }
  assert (Hin : In 1 (inflight detecting_state)) by (vm_compute; auto).
  split; [exact Hr |]. split; [exact Hin |].
  destruct (@detection_failure_stops_the_loop detecting_state 1 Hr Hin)
    as [H1 [_ [H3 [_ [_ Hall]]]]].
  cbv zeta. split; [exact H1 |]. split; [exact H3 |].
  destruct (Hall [AnimationFrame 1 env_ok; ClickStart env_ok 672%float 378%float])
    as [_ [Hc _]].
  rewrite Hc. reflexivity.
Defined.

(** C7: when [getUserMedia] fails, the status becomes [ERROR] with the
    message of line 126 and stays so; [initialize] has returned, so the
    model is never loaded and the detector never set; the loop never
    starts: no frame is ever requested and no call of [estimateFaces] is
    ever made. *)
Theorem webcam_failure_never_starts (s : State) :
  reachable s -> initPc s = AwaitGetUserMedia ->
  forall es,
    let s' := run (step s GetUserMediaRejected) es in
    status s' = ERROR /\
    errorMessage s' =
      "Không thể truy cập webcam. Vui lòng cấp quyền và làm mới trang."%string /\
    initPc s' = Returned /\ detectorRef s' = false /\
    calls s' = 0 /\ inflight s' = [] /\ pending s' = [] /\ published s' = [].
Proof.
  intros Hr Hpc es. pose proof (reachable_inv Hr) as I.
  assert (Hdet : detectorRef s = false).
  { destruct (detectorRef s) eqn:E; [|reflexivity].
    pose proof (inv_det I E). congruence. }
  destruct (inv_nodet I Hdet) as [Hcalls [Hpub [_ Hnd]]].
  destruct (inv_idle I Hnd) as [Hinf Hpen].
  set (m := step s GetUserMediaRejected).
  assert (Hm : m = webcamFailed s) by (subst m; simpl; rewrite Hpc; reflexivity).
  assert (Hstop : Stopped m)
    by (rewrite Hm; unfold Stopped, webcamFailed; simpl; auto).
  destruct (stopped_run es Hstop)
    as [[S1 [S2 [S3 S4]]] [E1 [_ [E3 [E4 [_ E6]]]]]].
  assert (Fm : errorMessage m =
                 "Không thể truy cập webcam. Vui lòng cấp quyền và làm mới trang."%string
               /\ detectorRef m = false /\ calls m = 0 /\ published m = [])
    by (rewrite Hm; unfold webcamFailed; simpl; auto).
  destruct Fm as [F1 [F2 [F3 F4]]].
  cbv zeta. rewrite E1, E3, E4, E6. repeat split; assumption.
Qed.

Lemma webcam_failure_never_starts_witness :
  reachable (step initial Mount) /\
  initPc (step initial Mount) = AwaitGetUserMedia /\
  let s' := run (step (step initial Mount) GetUserMediaRejected)
              [ClickStart env_ok 672%float 378%float;
               SetBackendSettled true; AnimationFrame 1 env_ok] in
  status s' = ERROR /\ calls s' = 0 /\ detectorRef s' = false.
Proof.
  assert (Hr : reachable (step initial Mount)) by (constructor; constructor).
  split; [exact Hr |]. split; [reflexivity |].
  destruct (@webcam_failure_never_starts (step initial Mount) Hr eq_refl
              [ClickStart env_ok 672%float 378%float;
               SetBackendSettled true; AnimationFrame 1 env_ok])
    as [H1 [_ [_ [H4 [H5 _]]]]].
  cbv zeta. auto.
Defined.

(** ** Serialization *)

(** Only [handleStart] and an animation frame call the detector, and
    both find no call in flight. *)
Lemma new_call_finds_none_in_flight (s : State) (e : Event) :
  Inv s -> calls (step s e) <> calls s ->
  inflight s = [] /\ calls (step s e) = S (calls s) /\
  inflight (step s e) = [S (calls s)].
Proof.
  intros I. destruct e; simpl.
  1-7: destruct (initPc s); try destruct ok; try destruct video_attached;
       simpl; congruence.
  - (* ClickStart *)
    destruct (mounted s); [|congruence]. unfold handleStart.
    destruct (Status_eqb (status s) READY) eqn:Hst; simpl; [|congruence].
    destruct (video_current env && canvas_current env); simpl; [|congruence].
    assert (Hnd : status s <> DETECTING)
      by (destruct (status s); simpl in Hst; congruence).
    destruct (inv_idle I Hnd) as [Hinf _].
    unfold detectFace_enter, readable; simpl.
    destruct (detectorRef s && video_current env && canvas_current env
              && (readyState env =? 4)); simpl; [|congruence].
    destruct (ctx_ok env); simpl; [|congruence].
    rewrite Hinf. auto.
  - (* AnimationFrame *)
    destruct (existsb (Nat.eqb id) (pending s)) eqn:Hid; [|congruence].
    apply existsb_eqb_In in Hid.
    destruct (one_pending _ _ _ (inv_one I) Hid) as [_ Hinf].
    unfold detectFace_enter, readable; simpl.
    destruct (detectorRef s && video_current env && canvas_current env
              && (readyState env =? 4)); simpl; [|congruence].
    destruct (ctx_ok env); simpl; [|congruence].
    rewrite Hinf. auto.
  - (* EstimateFacesResolved *)
    destruct (existsb (Nat.eqb call) (inflight s)); [|congruence].
    destruct faces; simpl; congruence.
  - (* EstimateFacesRejected *)
    destruct (existsb (Nat.eqb call) (inflight s)); [|congruence].
    unfold detectFace_rejected, cancelCurrent; simpl.
    destruct (animationFrameId s) as [[|k]|]; simpl; congruence.
  - (* Unmount *)
    destruct (mounted s); [|congruence].
    unfold cleanup, cancelCurrent; simpl.
    destruct (animationFrameId s) as [[|k]|]; simpl;
      destruct (video_attached && srcObject s); simpl; congruence.
Qed.

(** C9: in every state the component can reach, at most one call of
    [estimateFaces] is in flight; a frame is requested only while no call
    is in flight, and a call is made only when none is in flight; the
    placements were published in the order of the calls (the record,
    newest first, is strictly decreasing) and the call in flight is later
    than every one that has published. *)
Theorem detection_calls_are_serialized (s : State) :
  reachable s ->
  List.length (inflight s) <= 1 /\
  (pending s <> [] -> inflight s = []) /\
  (forall e, calls (step s e) <> calls s ->
     inflight s = [] /\ inflight (step s e) = [calls (step s e)]) /\
  StronglySorted gt (tags s) /\
  (forall c t, In c (inflight s) -> In t (tags s) -> t < c).
Proof.
  intros Hr. pose proof (reachable_inv Hr) as I.
  pose proof (inv_one I) as Hone.
  repeat split.
  - lia.
  - intros Hp. destruct (pending s); [congruence|].
    destruct (inflight s); [reflexivity | simpl in Hone; lia].
  - apply (new_call_finds_none_in_flight e I H).
  - destruct (new_call_finds_none_in_flight e I H) as [_ [-> ->]]. reflexivity.
  - apply (inv_sorted I).
  - apply (inv_tags_lt I).
Qed.

Lemma detection_calls_are_serialized_witness :
  reachable (step waiting_state (AnimationFrame 1 env_ok)) /\
  let s := step waiting_state (AnimationFrame 1 env_ok) in
  inflight s = [2] /\ pending s = [] /\ tags s = [1] /\
  List.length (inflight s) <= 1.
Proof.
  assert (Hr : reachable (step waiting_state (AnimationFrame 1 env_ok))).
  { unfold waiting_state, detecting_state, ready_state.
    do 3 constructor. apply reachable_run. constructor. }
  split; [exact Hr |].
  destruct (@detection_calls_are_serialized _ Hr) as [Hlen _].
  cbv zeta. do 3 (split; [vm_compute; reflexivity |]). exact Hlen.
Defined.

(** ** Teardown *)

Lemma torn_down_step (s : State) (e : Event) :
  TornDown s -> TornDown (step s e) /\ camera (step s e) = camera s.
Proof.
  unfold TornDown. intros [Hm [Hn Ha]].
  destruct e; simpl; rewrite ?Hm; auto.
  1-7: destruct (initPc s) eqn:Hpc; try destruct ok;
       try destruct video_attached; simpl; rewrite ?Hpc;
       repeat split; auto; congruence.
  - (* AnimationFrame *)
    destruct (existsb (Nat.eqb id) (pending s)); auto.
    unfold detectFace_enter.
    destruct (readable _ env); [destruct (ctx_ok env)|]; simpl; auto.
  - (* EstimateFacesResolved *)
    destruct (existsb (Nat.eqb call) (inflight s)); auto.
    destruct faces; simpl; auto.
  - (* EstimateFacesRejected *)
    destruct (existsb (Nat.eqb call) (inflight s)); auto.
    unfold detectFace_rejected, cancelCurrent; simpl.
    destruct (animationFrameId s) as [[|k]|]; simpl; auto.
Qed.

Lemma torn_down_run (s : State) (es : list Event) :
  TornDown s -> camera (run s es) = camera s.
Proof.
  revert s. induction es as [|e es IH]; intros s Hs; simpl; [reflexivity|].
  destruct (torn_down_step e Hs) as [Hs' Hc]. rewrite (IH _ Hs'). exact Hc.
Qed.

(** C8 fails on the code.  Frame 1 is requested and the camera track is
    live when the component is unmounted.  React has cleared
    [videoRef.current] by the time the cleanup runs, so the cleanup
    cancels the frame and the test of line 156 fails: no track is
    stopped, then or in any later state. *)
Theorem teardown_stops_no_track :
  (mounted waiting_state = true /\ pending waiting_state = [1] /\
   srcObject waiting_state = true /\ camera waiting_state = Some [0]) /\
  let s' := step waiting_state (Unmount false) in
  mounted s' = false /\ pending s' = [] /\ inflight s' = [] /\
  camera s' = Some [0] /\
  forall es, camera (run s' es) = Some [0].
Proof.
  split; [vm_compute; repeat split |].
  cbv zeta. do 4 (split; [reflexivity |]).
  intros es.
  assert (Htd : TornDown (step waiting_state (Unmount false)))
    by (unfold TornDown; simpl; repeat split; discriminate).
  rewrite (torn_down_run es Htd). reflexivity.
Qed.


(** ** What the page shows *)

Lemma shown_initial : Shown initial.
Proof.
  constructor; simpl; auto; intros; discriminate.
Qed.

Lemma shown_reschedule (s : State) : Shown s -> Shown (reschedule s).
Proof.
  intros H. destruct H. unfold reschedule; simpl. constructor; simpl; auto.
Qed.

Lemma shown_detectFace_enter (env : TickEnv) (s : State) :
  Shown s -> status s = DETECTING -> Shown (detectFace_enter env s).
Proof.
  intros H Hst. unfold detectFace_enter.
  destruct (readable s env); [destruct (ctx_ok env); simpl |];
    try (apply shown_reschedule; assumption).
  destruct H. constructor; simpl; auto.
  - rewrite Hst. simpl. lia.
  - rewrite sh_count0, Hst. simpl. lia.
Qed.

(** The events of [initialize], which leave the loop and the page alone. *)
Ltac shown_init_event s I H Hpc :=
  let P := fresh "P" in let D := fresh "D" in let N := fresh "N" in
  let L := fresh "L" in let M := fresh "M" in
  let C := fresh "C" in let T := fresh "T" in
  pose proof (inv_pc I) as P; rewrite Hpc in P;
  pose proof (inv_det I) as D; pose proof (inv_nodet I) as N;
  pose proof (inv_idle I) as L;
  pose proof (sh_message H) as M; pose proof (sh_count H) as C;
  pose proof (sh_stream H) as T; rewrite Hpc in T;
  destruct H; constructor; simpl; auto;
  try solve
    [ intuition congruence
    | intros; discriminate
    | destruct (status s); intuition congruence
    | let E := fresh in
      destruct (detectorRef s) eqn:E; [specialize (D eq_refl); congruence |];
      rewrite C; destruct (status s); simpl; solve [lia | intuition congruence] ].

Lemma shown_step (s : State) (e : Event) :
  Inv s -> Shown s -> Shown (step s e).
Proof.
  intros I H. destruct e; simpl.
  - (* Mount *)
    destruct (initPc s) eqn:Hpc; try exact H. shown_init_event s I H Hpc.
  - (* GetUserMediaResolved *)
    destruct (initPc s) eqn:Hpc; try exact H.
    destruct video_attached; unfold beginLoad; shown_init_event s I H Hpc.
  - (* GetUserMediaRejected *)
    destruct (initPc s) eqn:Hpc; try exact H.
    unfold webcamFailed; shown_init_event s I H Hpc.
  - (* LoadedMetadata *)
    destruct (initPc s) eqn:Hpc; try exact H.
    unfold beginLoad; shown_init_event s I H Hpc.
  - (* SetBackendSettled *)
    destruct (initPc s) eqn:Hpc; try exact H.
    destruct ok; unfold loadFailed; shown_init_event s I H Hpc.
  - (* TfReadySettled *)
    destruct (initPc s) eqn:Hpc; try exact H.
    destruct ok; unfold loadFailed; shown_init_event s I H Hpc.
  - (* CreateDetectorSettled *)
    destruct (initPc s) eqn:Hpc; try exact H.
    destruct ok; unfold loadFailed; shown_init_event s I H Hpc.
  - (* ClickStart *)
    destruct (mounted s) eqn:Hm; [|exact H]. unfold handleStart.
    destruct (Status_eqb (status s) READY) eqn:Hst; simpl; [|exact H].
    destruct (video_current env); simpl; [|exact H].
    destruct (canvas_current env); simpl; [|exact H].
    assert (Hready : status s = READY)
      by (destruct (status s); simpl in Hst; congruence).
    assert (Hnd : status s <> DETECTING) by congruence.
    destruct (inv_idle I Hnd) as [Hinf Hpen].
    apply shown_detectFace_enter; simpl; auto.
    pose proof (sh_count H) as C. rewrite Hready in C. simpl in C.
    destruct H; constructor; simpl; auto; try lia.
    rewrite Hready in sh_message0. exact sh_message0.
  - (* AnimationFrame *)
    destruct (existsb (Nat.eqb id) (pending s)) eqn:Hid; [|exact H].
    apply existsb_eqb_In in Hid.
    assert (Hst : status s = DETECTING).
    { destruct (status s) eqn:E; try reflexivity;
        destruct (inv_idle I) as [_ Hp]; try congruence;
        rewrite Hp in Hid; destruct Hid. }
    apply shown_detectFace_enter; simpl; auto.
    destruct H; constructor; simpl; auto.
  - (* EstimateFacesResolved *)
    destruct (existsb (Nat.eqb call) (inflight s)) eqn:Hc; [|exact H].
    apply existsb_eqb_In in Hc.
    destruct (one_in_flight _ _ _ (inv_one I) Hc) as [Hinf Hpen].
    assert (Hst : status s = DETECTING).
    { destruct (status s) eqn:E; try reflexivity;
        destruct (inv_idle I) as [Hi _]; congruence. }
    rewrite Hinf, remove_single. unfold detectFace_resolved.
    apply shown_reschedule.
    pose proof (sh_count H) as C. rewrite Hinf, Hst in C. simpl in C.
    destruct faces as [|face rest]; unfold setHatPosition; simpl;
      destruct H; constructor; simpl; auto;
      try (rewrite Hst; simpl; lia);
      try (right; exists d, face; split; reflexivity).
  - (* EstimateFacesRejected *)
    destruct (existsb (Nat.eqb call) (inflight s)) eqn:Hc; [|exact H].
    apply existsb_eqb_In in Hc.
    destruct (one_in_flight _ _ _ (inv_one I) Hc) as [Hinf Hpen].
    assert (Hst : status s = DETECTING).
    { destruct (status s) eqn:E; try reflexivity;
        destruct (inv_idle I) as [Hi _]; congruence. }
    assert (Hdet : detectorRef s = true).
    { destruct (detectorRef s) eqn:E; [reflexivity|].
      destruct (inv_nodet I E) as [_ [_ [_ ?]]]. congruence. }
    rewrite Hinf, remove_single.
    pose proof (sh_count H) as C. rewrite Hinf, Hst in C. simpl in C.
    unfold detectFace_rejected, cancelCurrent; simpl.
    destruct (animationFrameId s) as [[|n]|]; simpl;
      destruct H; constructor; simpl; auto;
      try (right; right; reflexivity);
      try (rewrite Hdet; simpl; lia); try lia.
  - (* Unmount *)
    destruct (mounted s) eqn:Hm; [|exact H].
    unfold cleanup, cancelCurrent; simpl.
    destruct (animationFrameId s) as [[|n]|]; simpl;
      destruct (video_attached && srcObject s); simpl;
      destruct H; constructor; simpl; auto;
      try (destruct (initPc s); auto);
      try (intros Hd; specialize (sh_detector0 Hd));
      destruct (camera s); simpl; congruence.
Qed.

Lemma alive_initial : Alive initial.
Proof. unfold Alive; simpl; intros; discriminate. Qed.

Lemma alive_reschedule (s : State) :
  inflight s = [] -> pending s = [] -> Alive (reschedule s).
Proof.
  intros Hinf Hpen _ _. unfold reschedule; simpl. rewrite Hinf, Hpen.
  reflexivity.
Qed.

Lemma alive_detectFace_enter (env : TickEnv) (s : State) :
  inflight s = [] -> pending s = [] -> Alive (detectFace_enter env s).
Proof.
  intros Hinf Hpen. unfold detectFace_enter.
  destruct (readable s env); [destruct (ctx_ok env); simpl |];
    try (apply alive_reschedule; assumption).
  intros _ _. simpl. rewrite Hinf, Hpen. reflexivity.
Qed.

Lemma alive_step (s : State) (e : Event) :
  Inv s -> Alive s -> Alive (step s e).
Proof.
  intros I A. destruct e; simpl.
  1-7: destruct (initPc s) eqn:Hpc; try exact A;
       pose proof (inv_pc I) as P; rewrite Hpc in P;
       try destruct ok; try destruct video_attached;
       unfold beginLoad, loadFailed, webcamFailed;
       intros Hst; simpl in Hst; intuition congruence.
  - (* ClickStart *)
    destruct (mounted s) eqn:Hm; [|exact A]. unfold handleStart.
    destruct (Status_eqb (status s) READY) eqn:Hst; simpl; [|exact A].
    destruct (video_current env); simpl; [|exact A].
    destruct (canvas_current env); simpl; [|exact A].
    assert (Hnd : status s <> DETECTING)
      by (destruct (status s); simpl in Hst; congruence).
    destruct (inv_idle I Hnd) as [Hinf Hpen].
    apply alive_detectFace_enter; assumption.
  - (* AnimationFrame *)
    destruct (existsb (Nat.eqb id) (pending s)) eqn:Hid; [|exact A].
    apply existsb_eqb_In in Hid.
    destruct (one_pending _ _ _ (inv_one I) Hid) as [Hpen Hinf].
    apply alive_detectFace_enter; simpl; [assumption|].
    rewrite Hpen. apply remove_single.
  - (* EstimateFacesResolved *)
    destruct (existsb (Nat.eqb call) (inflight s)) eqn:Hc; [|exact A].
    apply existsb_eqb_In in Hc.
    destruct (one_in_flight _ _ _ (inv_one I) Hc) as [Hinf Hpen].
    unfold detectFace_resolved. apply alive_reschedule.
    + destruct faces; simpl; rewrite Hinf; apply remove_single.
    + destruct faces; simpl; assumption.
  - (* EstimateFacesRejected *)
    destruct (existsb (Nat.eqb call) (inflight s)) eqn:Hc; [|exact A].
    unfold detectFace_rejected, cancelCurrent; simpl.
    destruct (animationFrameId s) as [[|n]|]; intros Hst; simpl in Hst;
      discriminate.
  - (* Unmount *)
    destruct (mounted s) eqn:Hm; [|exact A].
    unfold cleanup, cancelCurrent; simpl.
    destruct (animationFrameId s) as [[|n]|]; simpl;
      destruct (video_attached && srcObject s); simpl;
      intros _ Hmo; simpl in Hmo; discriminate.
Qed.

Lemma reachable_shown (s : State) : reachable s -> Shown s /\ Alive s.
Proof.
  induction 1 as [|s e Hr [IH1 IH2]].
  - split; [apply shown_initial | apply alive_initial].
  - pose proof (reachable_inv Hr) as I.
    split; [apply shown_step | apply alive_step]; assumption.
Qed.

(** ** The status *)

Lemma status_detectFace_enter (env : TickEnv) (s : State) :
  status (detectFace_enter env s) = status s /\
  canvasSize (detectFace_enter env s) = canvasSize s.
Proof.
  unfold detectFace_enter.
  destruct (readable s env); [destruct (ctx_ok env)|]; split; reflexivity.
Qed.

Lemma rank_step (s : State) (e : Event) :
  Inv s -> statusRank (status s) <= statusRank (status (step s e)).
Proof.
  intros I. pose proof (inv_pc I) as P. destruct e; simpl.
  1-7: destruct (initPc s) eqn:Hpc; auto;
       try destruct ok; try destruct video_attached;
       unfold beginLoad, loadFailed, webcamFailed; simpl;
       destruct (status s); simpl; try lia; intuition congruence.
  - (* ClickStart *)
    destruct (mounted s); auto. unfold handleStart.
    destruct (Status_eqb (status s) READY) eqn:Hst; simpl; auto.
    destruct (video_current env && canvas_current env); simpl; auto.
    rewrite (proj1 (status_detectFace_enter env _)). simpl.
    destruct (status s); simpl in *; try discriminate; lia.
  - (* AnimationFrame *)
    destruct (existsb (Nat.eqb id) (pending s)); auto.
    rewrite (proj1 (status_detectFace_enter env _)). auto.
  - (* EstimateFacesResolved *)
    destruct (existsb (Nat.eqb call) (inflight s)); auto.
    destruct faces; simpl; auto.
  - (* EstimateFacesRejected *)
    destruct (existsb (Nat.eqb call) (inflight s)); auto.
    unfold detectFace_rejected, cancelCurrent; simpl.
    destruct (animationFrameId s) as [[|n]|]; simpl;
      destruct (status s); simpl; lia.
  - (* Unmount *)
    destruct (mounted s); auto. unfold cleanup, cancelCurrent; simpl.
    destruct (animationFrameId s) as [[|n]|]; simpl;
      destruct (video_attached && srcObject s); simpl; auto.
Qed.

(** X1: the status only moves forward through [IDLE],
    [INITIALIZING_WEBCAM], [LOADING_MODEL], [READY], [DETECTING], [ERROR]:
    over every run from a reachable state its rank does not decrease. *)
Theorem status_never_goes_back (s : State) (es : list Event) :
  reachable s ->
  statusRank (status s) <= statusRank (status (run s es)).
Proof.
  revert s. induction es as [|e es IH]; intros s Hr; simpl; [lia|].
  pose proof (rank_step e (reachable_inv Hr)) as H1.
  pose proof (IH (step s e) (reach_step e Hr)) as H2. lia.
Qed.

Lemma status_never_goes_back_witness :
  reachable detecting_state /\
  statusRank (status detecting_state) = 4 /\
  4 <= statusRank
         (status (run detecting_state
                    [SetBackendSettled false; GetUserMediaRejected;
                     ClickStart env_ok 672%float 378%float])).
Proof.
  assert (Hr : reachable detecting_state).
  { unfold detecting_state, ready_state. constructor.
    apply reachable_run. constructor. }
  split; [exact Hr |]. split; [reflexivity |].
  exact (@status_never_goes_back detecting_state
           [SetBackendSettled false; GetUserMediaRejected;
            ClickStart env_ok 672%float 378%float] Hr).
Defined.

Lemma reachable_error_stopped (s : State) :
  reachable s -> status s = ERROR -> Stopped s.
Proof.
  intros Hr Hst. pose proof (reachable_inv Hr) as I.
  assert (Hnd : status s <> DETECTING) by congruence.
  destruct (inv_idle I Hnd) as [Hinf Hpen].
  pose proof (inv_pc I) as P.
  unfold Stopped. repeat split; auto.
  destruct (initPc s); auto; intuition congruence.
Qed.

(** X2: [ERROR] is final.  From a reachable state with status [ERROR],
    whatever happens, the status stays [ERROR] with the same message, the
    hat keeps the placement it had, the detector is not called and no
    frame is requested. *)
Theorem error_is_final (s : State) (es : list Event) :
  reachable s -> status s = ERROR ->
  let s' := run s es in
  status s' = ERROR /\ errorMessage s' = errorMessage s /\
  hatPosition s' = hatPosition s /\ calls s' = calls s /\
  rafLast s' = rafLast s /\ pending s' = [] /\ inflight s' = [] /\
  detectorRef s' = detectorRef s.
Proof.
  intros Hr Hst.
  destruct (stopped_run es (reachable_error_stopped Hr Hst))
    as [[S1 [S2 [S3 S4]]] [E1 [E2 [E3 [E4 [E5 E6]]]]]].
  cbv zeta. repeat split; assumption.
Qed.

Lemma error_is_final_witness :
  let s := run waiting_state
             [AnimationFrame 1 env_ok; EstimateFacesRejected 2] in
  reachable s /\ status s = ERROR /\
  let s' := run s [ClickStart env_ok 672%float 378%float;
                   AnimationFrame 1 env_ok] in
  status s' = ERROR /\ display (hatPosition s') = block /\ calls s' = 2.
Proof.
  cbv zeta.
  assert (Hr : reachable (run waiting_state
                            [AnimationFrame 1 env_ok; EstimateFacesRejected 2])).
  { apply reachable_run. unfold waiting_state, detecting_state, ready_state.
    do 2 constructor. apply reachable_run. constructor. }
  split; [exact Hr |]. split; [reflexivity |].
  destruct (@error_is_final _ [ClickStart env_ok 672%float 378%float;
                               AnimationFrame 1 env_ok] Hr eq_refl)
    as [H1 [_ [H3 [H4 _]]]].
  rewrite H1, H3, H4. vm_compute. repeat split.
Defined.

(** X3: when one of the three steps of the model loading fails, the
    status becomes [ERROR] with the message of line 141 and stays so; the
    detector is never set, no frame is ever requested and
    [estimateFaces] is never called. *)
Theorem model_load_failure_never_starts (s : State) (e : Event)
    (es : list Event) :
  reachable s -> loadFailure s e = true ->
  let s' := run (step s e) es in
  status s' = ERROR /\ errorMessage s' = msgModel /\
  initPc s' = Returned /\ detectorRef s' = false /\
  calls s' = 0 /\ pending s' = [] /\ inflight s' = [] /\ published s' = [].
Proof.
  intros Hr Hf. pose proof (reachable_inv Hr) as I.
  assert (Hm : step s e = loadFailed s).
  { unfold loadFailure in Hf.
    destruct (initPc s) eqn:Hpc; destruct e; try discriminate;
      destruct ok; try discriminate; simpl; rewrite Hpc; reflexivity. }
  assert (Hpc : initPc s <> Returned).
  { unfold loadFailure in Hf. destruct (initPc s); congruence. }
  assert (Hdet : detectorRef s = false).
  { destruct (detectorRef s) eqn:E; [|reflexivity].
    pose proof (inv_det I E). congruence. }
  destruct (inv_nodet I Hdet) as [Hcalls [Hpub [_ Hnd]]].
  destruct (inv_idle I Hnd) as [Hinf Hpen].
  assert (Hstop : Stopped (step s e))
    by (rewrite Hm; unfold Stopped, loadFailed; simpl; auto).
  assert (Fm : errorMessage (step s e) = msgModel /\
               detectorRef (step s e) = false /\
               calls (step s e) = 0 /\ published (step s e) = [])
    by (rewrite Hm; unfold loadFailed; simpl; auto).
  destruct Fm as [F1 [F2 [F3 F4]]].
  destruct (stopped_run es Hstop)
    as [[S1 [S2 [S3 S4]]] [E1 [_ [E3 [E4 [_ E6]]]]]].
  cbv zeta. rewrite E1, E3, E4, E6. repeat split; assumption.
Qed.

Lemma model_load_failure_never_starts_witness :
  let s := run initial [Mount; GetUserMediaResolved 1 true; LoadedMetadata;
                        SetBackendSettled true] in
  reachable s /\ loadFailure s (TfReadySettled false) = true /\
  let s' := run (step s (TfReadySettled false))
              [CreateDetectorSettled true;
               ClickStart env_ok 672%float 378%float] in
  status s' = ERROR /\ detectorRef s' = false /\ calls s' = 0.
Proof.
  cbv zeta.
  assert (Hr : reachable (run initial [Mount; GetUserMediaResolved 1 true;
                                       LoadedMetadata; SetBackendSettled true]))
    by (apply reachable_run; constructor).
  split; [exact Hr |]. split; [reflexivity |].
  destruct (@model_load_failure_never_starts _ (TfReadySettled false)
              [CreateDetectorSettled true;
               ClickStart env_ok 672%float 378%float] Hr eq_refl)
    as [H1 [_ [_ [H4 [H5 _]]]]].
  auto.
Defined.

(** X4: the status is [READY] or [DETECTING] only when both the webcam
    and the model have come up: [initialize] has returned, the detector
    is set and the stream has been acquired. *)
Theorem ready_means_webcam_and_model (s : State) :
  reachable s -> status s = READY \/ status s = DETECTING ->
  initPc s = Returned /\ detectorRef s = true /\ camera s <> None.
Proof.
  intros Hr Hst. pose proof (reachable_inv Hr) as I.
  destruct (reachable_shown Hr) as [H _].
  assert (Hdet : detectorRef s = true).
  { destruct (detectorRef s) eqn:E; [reflexivity|].
    destruct (inv_nodet I E) as [_ [_ [H1 H2]]]. tauto. }
  split; [apply (inv_det I Hdet) |]. split; [exact Hdet |].
  apply (sh_detector H Hdet).
Qed.

Lemma ready_means_webcam_and_model_witness :
  reachable ready_state /\ status ready_state = READY /\
  detectorRef ready_state = true /\ camera ready_state <> None.
Proof.
  assert (Hr : reachable ready_state)
    by (unfold ready_state; apply reachable_run; constructor).
  split; [exact Hr |]. split; [reflexivity |].
  exact (proj2 (@ready_means_webcam_and_model ready_state Hr
                  (or_introl eq_refl))).
Defined.

(** X5: before the loop is started (status up to [READY]) nothing has
    been published or drawn: the hat is at its initial placement, hidden,
    the canvas is empty, the detector has not been called and no frame
    is requested. *)
Theorem nothing_shown_before_start (s : State) :
  reachable s -> statusRank (status s) <= 3 ->
  hatPosition s = hatPosition initial /\ display (hatPosition s) = none /\
  drawn s = [] /\ published s = [] /\ calls s = 0 /\
  pending s = [] /\ inflight s = [].
Proof.
  intros Hr Hrank. pose proof (reachable_inv Hr) as I.
  destruct (reachable_shown Hr) as [H _].
  assert (Hnd : status s <> DETECTING)
    by (intros E; rewrite E in Hrank; simpl in Hrank; lia).
  destruct (inv_idle I Hnd) as [Hinf Hpen].
  pose proof (sh_fresh H Hrank) as Hcalls.
  pose proof (sh_count H) as C. rewrite Hcalls, Hinf in C. simpl in C.
  assert (Hpub : published s = [])
    by (destruct (published s); [reflexivity | simpl in C; lia]).
  pose proof (sh_last H) as L. rewrite Hpub in L.
  assert (Hdisp : display (hatPosition s) = none) by (rewrite L; reflexivity).
  repeat split; auto.
  destruct (sh_canvas H) as [[Hd _] | [d [b [_ Hh]]]]; [exact Hd |].
  rewrite Hh in Hdisp. discriminate.
Qed.

Lemma nothing_shown_before_start_witness :
  reachable ready_state /\ statusRank (status ready_state) <= 3 /\
  display (hatPosition ready_state) = none /\ drawn ready_state = [].
Proof.
  assert (Hr : reachable ready_state)
    by (unfold ready_state; apply reachable_run; constructor).
  assert (Hk : statusRank (status ready_state) <= 3) by (vm_compute; lia).
  split; [exact Hr |]. split; [exact Hk |].
  destruct (@nothing_shown_before_start ready_state Hr Hk)
    as [_ [H2 [H3 _]]].
  split; assumption.
Defined.

(** ** The loop and the teardown *)

(** X6: while the component is mounted and the status is [DETECTING] the
    loop is alive and holds exactly one thing: either one requested
    frame, whose handle is the one kept in [animationFrameId], or one
    call of [estimateFaces] in flight. *)
Theorem loop_alive_while_detecting (s : State) :
  reachable s -> status s = DETECTING -> mounted s = true ->
  (exists id, pending s = [id] /\ inflight s = [] /\
              animationFrameId s = Some id) \/
  (exists c, inflight s = [c] /\ pending s = []).
Proof.
  intros Hr Hst Hm. pose proof (reachable_inv Hr) as I.
  destruct (reachable_shown Hr) as [_ A]. specialize (A Hst Hm).
  pose proof (inv_handle I) as Hh.
  destruct (pending s) as [|id p] eqn:Hp; destruct (inflight s) as [|c q] eqn:Hq;
    simpl in A; try lia.
  - right. exists c. destruct q; [auto | simpl in A; lia].
  - left. exists id. destruct p; [|simpl in A; lia].
    repeat split. apply (Hh id). left. reflexivity.
Qed.

Lemma loop_alive_while_detecting_witness :
  reachable waiting_state /\ status waiting_state = DETECTING /\
  mounted waiting_state = true /\ pending waiting_state = [1].
Proof.
  assert (Hr : reachable waiting_state).
  { unfold waiting_state, detecting_state, ready_state.
    do 2 constructor. apply reachable_run. constructor. }
  split; [exact Hr |]. split; [reflexivity |]. split; [reflexivity |].
  destruct (@loop_alive_while_detecting waiting_state Hr eq_refl eq_refl)
    as [[id [Hp _]] | [c [Hc _]]].
  - reflexivity.
  - vm_compute in Hc. discriminate.
Defined.

Lemma cleanup_leaves_no_frame (s : State) (va : bool) :
  Inv s ->
  pending (cleanup va (set_mounted false s)) = [] /\
  inflight (cleanup va (set_mounted false s)) = inflight s /\
  calls (cleanup va (set_mounted false s)) = calls s /\
  rafLast (cleanup va (set_mounted false s)) = rafLast s /\
  published (cleanup va (set_mounted false s)) = published s /\
  hatPosition (cleanup va (set_mounted false s)) = hatPosition s /\
  initPc (cleanup va (set_mounted false s)) = initPc s /\
  mounted (cleanup va (set_mounted false s)) = false.
Proof.
  intros I. pose proof (inv_one I) as Hone. pose proof (inv_handle I) as Hh.
  unfold cleanup, cancelCurrent; simpl.
  destruct (pending s) as [|id [|id' p]] eqn:Hp.
  - destruct (animationFrameId s) as [[|k]|]; simpl;
      destruct (va && srcObject s); simpl; rewrite ?Hp; auto 10.
  - destruct (Hh id (or_introl eq_refl)) as [Ha Hnz]. rewrite Ha.
    destruct id as [|k]; [congruence|]. simpl.
    destruct (va && srcObject s); simpl; rewrite ?Hp, ?remove_single; auto 10.
  - simpl in Hone. lia.
Qed.

Lemma dead_step (s : State) (e : Event) :
  Dead s ->
  Dead (step s e) /\ calls (step s e) = calls s /\
  rafLast (step s e) = rafLast s /\ published (step s e) = published s /\
  hatPosition (step s e) = hatPosition s.
Proof.
  unfold Dead. intros [Hm [Hn [Hpen Hinf]]].
  destruct e; simpl; rewrite ?Hm, ?Hpen, ?Hinf; simpl; auto 10.
  all: destruct (initPc s) eqn:Hpc; try destruct ok;
       try destruct video_attached; simpl; rewrite ?Hpc;
       repeat split; auto; congruence.
Qed.

Lemma dead_run (s : State) (es : list Event) :
  Dead s ->
  Dead (run s es) /\ calls (run s es) = calls s /\
  rafLast (run s es) = rafLast s /\ published (run s es) = published s /\
  hatPosition (run s es) = hatPosition s.
Proof.
  revert s. induction es as [|e es IH]; intros s Hs; simpl; [auto 10|].
  destruct (dead_step e Hs) as [Hs' [E1 [E2 [E3 E4]]]].
  destruct (IH _ Hs') as [Hr [F1 [F2 [F3 F4]]]].
  repeat split; try apply Hr; congruence.
Qed.

(** X7: a teardown that finds no call of [estimateFaces] in flight stops
    the loop for good: after the cleanup, whatever happens, no frame is
    requested, the detector is not called and nothing is published. *)
Theorem teardown_without_call_stops_for_good (s : State) (va : bool)
    (es : list Event) :
  reachable s -> mounted s = true -> inflight s = [] ->
  let s' := run (step s (Unmount va)) es in
  pending s' = [] /\ inflight s' = [] /\ calls s' = calls s /\
  rafLast s' = rafLast s /\ published s' = published s /\
  hatPosition s' = hatPosition s.
Proof.
  intros Hr Hm Hinf. pose proof (reachable_inv Hr) as I.
  destruct (cleanup_leaves_no_frame va I)
    as [C1 [C2 [C3 [C4 [C5 [C6 [C7 C8]]]]]]].
  assert (Hstep : step s (Unmount va) = cleanup va (set_mounted false s))
    by (simpl; rewrite Hm; reflexivity).
  assert (Hd : Dead (step s (Unmount va))).
  { rewrite Hstep. unfold Dead. repeat split; auto; [|congruence].
    rewrite C7. pose proof (inv_pc I) as P. intros E. rewrite E in P.
    destruct P as [_ [P _]]. congruence. }
  destruct (dead_run es Hd) as [[_ [_ [D3 D4]]] [E1 [E2 [E3 E4]]]].
  rewrite Hstep in E1, E2, E3, E4.
  cbv zeta. repeat split; congruence.
Qed.

Lemma teardown_without_call_stops_for_good_witness :
  reachable waiting_state /\ mounted waiting_state = true /\
  inflight waiting_state = [] /\ pending waiting_state = [1] /\
  let s' := run (step waiting_state (Unmount true))
              [AnimationFrame 1 env_ok;
               ClickStart env_ok 672%float 378%float] in
  pending s' = [] /\ calls s' = 1.
Proof.
  assert (Hr : reachable waiting_state).
  { unfold waiting_state, detecting_state, ready_state.
    do 2 constructor. apply reachable_run. constructor. }
  split; [exact Hr |]. do 3 (split; [reflexivity |]).
  destruct (@teardown_without_call_stops_for_good waiting_state true
              [AnimationFrame 1 env_ok;
               ClickStart env_ok 672%float 378%float] Hr eq_refl eq_refl)
    as [H1 [_ [H3 _]]].
  cbv zeta. rewrite H1, H3. split; reflexivity.
Defined.

(** X8: a teardown that finds a call of [estimateFaces] in flight does
    not stop the loop: the cleanup leaves the call in flight, and when
    the call resolves, with whatever result, its continuation publishes
    a placement and requests a frame. *)
Theorem teardown_with_call_in_flight_does_not_stop (s : State) (c : nat)
    (va : bool) (d : Dims float) (faces : list (Box float)) :
  reachable s -> mounted s = true -> In c (inflight s) ->
  let s1 := step s (Unmount va) in
  let s2 := step s1 (EstimateFacesResolved c d faces) in
  inflight s1 = [c] /\ pending s1 = [] /\
  pending s2 = [S (rafLast s)] /\
  List.length (published s2) = S (List.length (published s)).
Proof.
  intros Hr Hm Hc. pose proof (reachable_inv Hr) as I.
  destruct (one_in_flight _ _ _ (inv_one I) Hc) as [Hinf Hpen].
  destruct (cleanup_leaves_no_frame va I)
    as [C1 [C2 [C3 [C4 [C5 [C6 [C7 C8]]]]]]].
  assert (Hstep : step s (Unmount va) = cleanup va (set_mounted false s))
    by (simpl; rewrite Hm; reflexivity).
  cbv zeta. rewrite Hstep. rewrite C2, C1, Hinf.
  split; [reflexivity |]. split; [reflexivity |].
  simpl. rewrite C2, Hinf. simpl. rewrite Nat.eqb_refl. simpl.
  unfold detectFace_resolved, reschedule; simpl.
  destruct faces; simpl; rewrite C1, C4, C5; split; reflexivity.
Qed.

Lemma teardown_with_call_in_flight_does_not_stop_witness :
  reachable detecting_state /\ mounted detecting_state = true /\
  In 1 (inflight detecting_state) /\
  pending (run detecting_state
             [Unmount true; EstimateFacesResolved 1 dims0 []]) = [1].
Proof.
  assert (Hr : reachable detecting_state).
  { unfold detecting_state, ready_state. constructor.
    apply reachable_run. constructor. }
  assert (Hin : In 1 (inflight detecting_state)) by (vm_compute; auto).
  split; [exact Hr |]. split; [reflexivity |]. split; [exact Hin |].
  destruct (@teardown_with_call_in_flight_does_not_stop detecting_state 1
              true dims0 [] Hr eq_refl Hin) as [_ [_ [H3 _]]].
  exact H3.
Defined.

(** X9: a stream that [getUserMedia] delivers after the teardown is never
    stopped: the cleanup has already run, and in every later state all
    its tracks are live. *)
Theorem stream_after_teardown_is_never_stopped (s : State) (n : nat)
    (va : bool) (es : list Event) :
  reachable s -> mounted s = false -> initPc s = AwaitGetUserMedia ->
  camera (run (step s (GetUserMediaResolved n va)) es) = Some (repeat 0 n).
Proof.
  intros Hr Hm Hpc.
  assert (Htd : TornDown (step s (GetUserMediaResolved n va))).
  { simpl. rewrite Hpc. unfold TornDown, beginLoad.
    destruct va; simpl; repeat split; auto; discriminate. }
  rewrite (torn_down_run es Htd). simpl. rewrite Hpc.
  destruct va; reflexivity.
Qed.

Lemma stream_after_teardown_is_never_stopped_witness :
  reachable early_teardown /\ mounted early_teardown = false /\
  initPc early_teardown = AwaitGetUserMedia /\
  camera (run (step early_teardown (GetUserMediaResolved 1 true))
            [LoadedMetadata; Unmount true; SetBackendSettled true]) = Some [0].
Proof.
  assert (Hr : reachable early_teardown)
    by (unfold early_teardown; apply reachable_run; constructor).
  split; [exact Hr |]. split; [reflexivity |]. split; [reflexivity |].
  exact (@stream_after_teardown_is_never_stopped early_teardown 1 true
           [LoadedMetadata; Unmount true; SetBackendSettled true]
           Hr eq_refl eq_refl).
Defined.

(** X10: no track is ever stopped twice, and while the component is
    mounted no track is stopped at all, whatever the status (also after
    a failed detection). *)
Theorem tracks_live_while_mounted (s : State) (l : list nat) :
  reachable s -> camera s = Some l ->
  (forall n, In n l -> n <= 1) /\
  (mounted s = true -> l = repeat 0 (List.length l)).
Proof.
  intros Hr Hc. pose proof (reachable_inv Hr) as I. split.
  - intros n Hn. apply (@inv_tracks s I l n Hc Hn).
  - intros Hm.
    assert (Hz : forall n, In n l -> n = 0)
      by (intros n Hn; apply (@inv_tracks s I l n Hc Hn); exact Hm).
    clear -Hz. induction l as [|x l IH]; simpl; [reflexivity|].
    rewrite (Hz x) at 1 by (left; reflexivity). f_equal. apply IH.
    intros n Hn. apply Hz. right. exact Hn.
Qed.

Lemma tracks_live_while_mounted_witness :
  let s := step detecting_state (EstimateFacesRejected 1) in
  reachable s /\ camera s = Some [0] /\ status s = ERROR /\
  (mounted s = true -> [0] = repeat 0 1).
Proof.
  cbv zeta.
  assert (Hr : reachable (step detecting_state (EstimateFacesRejected 1))).
  { unfold detecting_state, ready_state. do 2 constructor.
    apply reachable_run. constructor. }
  split; [exact Hr |]. split; [reflexivity |]. split; [reflexivity |].
  exact (proj2 (@tracks_live_while_mounted _ [0] Hr eq_refl)).
Defined.

(** ** The canvas and the hat *)

(** X11: the hat is always square, and the canvas always agrees with it:
    either the canvas is empty and the hat is hidden, or the canvas holds
    exactly one rectangle, the hat is visible, its top is the top of the
    rectangle, its width is one and a half times the rectangle's width
    and its [left] is the rectangle's left edge plus half its width. *)
Theorem canvas_agrees_with_hat (s : State) :
  reachable s ->
  height (hatPosition s) = width (hatPosition s) /\
  ((drawn s = [] /\ display (hatPosition s) = none) \/
   (exists x y w h,
      drawn s = [(x, y, w, h)] /\ display (hatPosition s) = block /\
      top (hatPosition s) = y /\
      width (hatPosition s) = (w * 1.5)%float /\
      left (hatPosition s) = (x + w / 2)%float)).
Proof.
  intros Hr. destruct (reachable_shown Hr) as [H _].
  split; [apply (sh_square H) |].
  destruct (sh_canvas H) as [Hn | [d [b [Hd Hh]]]]; [left; exact Hn |].
  right. unfold faceRect in Hd. rewrite Hd, Hh.
  do 4 eexists. repeat split.
Qed.

Lemma canvas_agrees_with_hat_witness :
  reachable waiting_state /\
  height (hatPosition waiting_state) = width (hatPosition waiting_state) /\
  List.length (drawn waiting_state) = 1.
Proof.
  assert (Hr : reachable waiting_state).
  { unfold waiting_state, detecting_state, ready_state.
    do 2 constructor. apply reachable_run. constructor. }
  split; [exact Hr |].
  destruct (@canvas_agrees_with_hat waiting_state Hr) as [Hsq _].
  split; [exact Hsq | reflexivity].
Defined.

(** X12: every call of [estimateFaces] is accounted for: the calls made
    are those that have published a placement (one each), the one in
    flight if any, and, once a detection has failed, the one that
    failed. *)
Theorem calls_are_accounted_for (s : State) :
  reachable s ->
  calls s =
    List.length (published s) + List.length (inflight s) +
    (if Status_eqb (status s) ERROR && detectorRef s then 1 else 0) /\
  NoDup (tags s).
Proof.
  intros Hr. destruct (reachable_shown Hr) as [H _].
  split; [apply (sh_count H) |].
  pose proof (inv_sorted (reachable_inv Hr)) as Hs.
  induction Hs as [|t l Hs IH Hall]; constructor; auto.
  intros Hin. rewrite Forall_forall in Hall. specialize (Hall t Hin). lia.
Qed.

Lemma calls_are_accounted_for_witness :
  let s := run waiting_state
             [AnimationFrame 1 env_ok; EstimateFacesRejected 2] in
  reachable s /\ calls s = 2 /\ List.length (published s) = 1 /\
  inflight s = [] /\ status s = ERROR.
Proof.
  cbv zeta.
  assert (Hr : reachable (run waiting_state
                            [AnimationFrame 1 env_ok; EstimateFacesRejected 2])).
  { apply reachable_run. unfold waiting_state, detecting_state, ready_state.
    do 2 constructor. apply reachable_run. constructor. }
  split; [exact Hr |].
  destruct (@calls_are_accounted_for _ Hr) as [Hc _].
  split; [rewrite Hc; reflexivity |]. repeat split.
Defined.

(** X13: ticks that see no face leave the hat where it is: over any run
    made only of animation frames and of calls of [estimateFaces]
    resolving with the empty list, the status, the error message and the
    hat's [left], [top], [width], [height] and [transform] do not
    change, and the hat is either hidden or exactly as it was. *)
Theorem faceless_ticks_keep_the_hat_still (s : State) (es : list Event) :
  forallb faceless es = true ->
  let s' := run s es in
  status s' = status s /\ errorMessage s' = errorMessage s /\
  left (hatPosition s') = left (hatPosition s) /\
  top (hatPosition s') = top (hatPosition s) /\
  width (hatPosition s') = width (hatPosition s) /\
  height (hatPosition s') = height (hatPosition s) /\
  transform (hatPosition s') = transform (hatPosition s) /\
  (display (hatPosition s') = none \/ hatPosition s' = hatPosition s).
Proof.
  revert s. induction es as [|e es IH]; intros s Hall; simpl in *.
  - repeat split; auto.
  - apply andb_prop in Hall. destruct Hall as [He Hes].
    specialize (IH (step s e) Hes). cbv zeta in IH.
    destruct IH as [I1 [I2 [I3 [I4 [I5 [I6 [I7 I8]]]]]]].
    assert (Hstep :
      status (step s e) = status s /\
      errorMessage (step s e) = errorMessage s /\
      (hatPosition (step s e) = hatPosition s \/
       hatPosition (step s e) = hide (hatPosition s))).
    { destruct e; try discriminate; simpl.
      - destruct (existsb (Nat.eqb id) (pending s)); auto.
        unfold detectFace_enter.
        destruct (readable _ env); [destruct (ctx_ok env)|]; simpl; auto.
      - destruct faces; [|discriminate].
        destruct (existsb (Nat.eqb call) (inflight s)); simpl; auto. }
    destruct Hstep as [S1 [S2 S3]].
    rewrite I1, I2, I3, I4, I5, I6, I7, S1, S2.
    destruct S3 as [S3 | S3]; rewrite S3 in *; simpl;
      repeat split; auto.
    destruct I8 as [I8 | I8]; [left; exact I8 | left; rewrite I8; reflexivity].
Qed.

Lemma faceless_ticks_keep_the_hat_still_witness :
  let es := [AnimationFrame 1 env_ok; EstimateFacesResolved 2 dims0 [];
             AnimationFrame 2 env_no_ctx; AnimationFrame 3 env_ok;
             EstimateFacesResolved 3 dims0 []] in
  forallb faceless es = true /\
  status (run waiting_state es) = DETECTING /\
  left (hatPosition (run waiting_state es)) = 0x1.0ff3333333334p+7%float /\
  display (hatPosition (run waiting_state es)) = none.
Proof.
  cbv zeta. split; [reflexivity |].
  destruct (@faceless_ticks_keep_the_hat_still waiting_state
              [AnimationFrame 1 env_ok; EstimateFacesResolved 2 dims0 [];
               AnimationFrame 2 env_no_ctx; AnimationFrame 3 env_ok;
               EstimateFacesResolved 3 dims0 []] eq_refl)
    as [H1 [_ [H3 _]]].
  rewrite H1, H3. repeat split.
Defined.

(** ** The overlay and the button *)

(** X14: once the effect has run, the status overlay, whenever it is
    shown, carries a text that is not empty; and the error message is
    empty except in status [ERROR], where it is one of the three
    messages of the code. *)
Theorem overlay_always_has_a_message (s : State) :
  reachable s -> initPc s <> NotStarted ->
  (showOverlay s = true ->
   exists m, statusMessages s = Some m /\ m <> EmptyString) /\
  (status s <> ERROR -> errorMessage s = EmptyString) /\
  (status s = ERROR ->
   errorMessage s = msgWebcam \/ errorMessage s = msgModel \/
   errorMessage s = msgDetect).
Proof.
  intros Hr Hpc. pose proof (reachable_inv Hr) as I.
  destruct (reachable_shown Hr) as [H _].
  pose proof (sh_message H) as M. pose proof (inv_pc I) as P.
  repeat split.
  - unfold showOverlay, statusMessages. intros Hshow.
    destruct (status s) eqn:Hst; simpl in Hshow; try discriminate;
      try (eexists; split; [reflexivity | discriminate]).
    + destruct (initPc s); intuition congruence.
    + exists (errorMessage s). split; [reflexivity |].
      destruct M as [-> | [-> | ->]]; discriminate.
  - intros Hne. destruct (status s); congruence.
  - intros He. rewrite He in M. exact M.
Qed.

Lemma overlay_always_has_a_message_witness :
  let s := step (step initial Mount) GetUserMediaRejected in
  reachable s /\ initPc s <> NotStarted /\ showOverlay s = true /\
  statusMessages s = Some msgWebcam.
Proof.
  cbv zeta.
  assert (Hr : reachable (step (step initial Mount) GetUserMediaRejected))
    by (do 2 constructor; constructor).
  assert (Hpc : initPc (step (step initial Mount) GetUserMediaRejected)
                <> NotStarted) by (simpl; discriminate).
  split; [exact Hr |]. split; [exact Hpc |]. split; [reflexivity |].
  destruct (proj1 (@overlay_always_has_a_message _ Hr Hpc) eq_refl)
    as [m [Hm _]].
  reflexivity.
Defined.

Lemma canvas_step (s : State) (e : Event) :
  Inv s -> 4 <= statusRank (status s) ->
  canvasSize (step s e) = canvasSize s.
Proof.
  intros I Hk. pose proof (inv_pc I) as P.
  assert (Hpc : initPc s = Returned).
  { destruct (initPc s); auto; destruct (status s); simpl in Hk;
      try lia; intuition congruence. }
  destruct e; simpl; rewrite ?Hpc; auto.
  - destruct (mounted s); auto. unfold handleStart.
    destruct (status s); simpl in *; auto; lia.
  - destruct (existsb (Nat.eqb id) (pending s)); auto.
    rewrite (proj2 (status_detectFace_enter env _)). reflexivity.
  - destruct (existsb (Nat.eqb call) (inflight s)); auto.
    destruct faces; reflexivity.
  - destruct (existsb (Nat.eqb call) (inflight s)); auto.
    unfold detectFace_rejected, cancelCurrent; simpl.
    destruct (animationFrameId s) as [[|n]|]; reflexivity.
  - destruct (mounted s); auto. unfold cleanup, cancelCurrent; simpl.
    destruct (animationFrameId s) as [[|n]|]; simpl;
      destruct (video_attached && srcObject s); reflexivity.
Qed.

Lemma started_run (s : State) (es : list Event) :
  reachable s -> 4 <= statusRank (status s) ->
  canvasSize (run s es) = canvasSize s /\
  4 <= statusRank (status (run s es)).
Proof.
  revert s. induction es as [|e es IH]; intros s Hr Hk; simpl; [auto|].
  pose proof (reachable_inv Hr) as I.
  pose proof (rank_step e I) as Hk'.
  destruct (IH (step s e) (reach_step e Hr)) as [H1 H2]; [lia|].
  rewrite H1. split; [apply canvas_step; assumption | exact H2].
Qed.

(** X15: the button starts the loop once.  Its label is the one of
    [READY] exactly when it is enabled.  While it is disabled a click
    changes nothing.  When it is enabled and the two elements are there,
    a click sets the canvas to the size of the video element and the
    status to [DETECTING]; from then on, whatever happens, the button
    stays disabled and the size of the canvas is not set again. *)
Theorem button_starts_the_loop_once (s : State) (env : TickEnv)
    (w h : float) (es : list Event) :
  reachable s ->
  (buttonLabel s = "Bắt đầu"%string <-> buttonDisabled s = false) /\
  (buttonDisabled s = true -> step s (ClickStart env w h) = s) /\
  (buttonDisabled s = false -> mounted s = true ->
   video_current env = true -> canvas_current env = true ->
   let s1 := step s (ClickStart env w h) in
   status s1 = DETECTING /\ canvasSize s1 = (w, h) /\
   buttonRendered s1 = false /\ showOverlay s1 = false /\
   buttonDisabled (run s1 es) = true /\ canvasSize (run s1 es) = (w, h)).
Proof.
  intros Hr. unfold buttonDisabled. split; [|split].
  - unfold buttonLabel.
    destruct (status s); simpl; split; intros E; try reflexivity;
      discriminate.
  - intros Hd. simpl. unfold handleStart.
    destruct (Status_eqb (status s) READY); [discriminate|].
    destruct (mounted s); reflexivity.
  - intros Hd Hm Hv Hc.
    assert (Hs1 : status (step s (ClickStart env w h)) = DETECTING /\
                  canvasSize (step s (ClickStart env w h)) = (w, h)).
    { simpl. rewrite Hm. unfold handleStart.
      destruct (Status_eqb (status s) READY); [|discriminate].
      rewrite Hv, Hc. simpl.
      destruct (status_detectFace_enter env
                  (set_status DETECTING (set_canvasSize (w, h) s))) as [-> ->].
      split; reflexivity. }
    destruct Hs1 as [Hst Hcs]. cbv zeta.
    destruct (@started_run (step s (ClickStart env w h)) es)
      as [R1 R2]; [constructor; exact Hr | rewrite Hst; simpl; lia |].
    unfold buttonRendered, showOverlay. rewrite Hst, R1, Hcs.
    repeat split.
    destruct (status (run (step s (ClickStart env w h)) es));
      simpl in *; try reflexivity; lia.
Qed.

Lemma button_starts_the_loop_once_witness :
  reachable ready_state /\ buttonDisabled ready_state = false /\
  let s1 := step ready_state (ClickStart env_ok 672%float 378%float) in
  let s2 := run s1 [ClickStart env_ok 1%float 1%float;
                    EstimateFacesResolved 1 dims0 [box0];
                    ClickStart env_ok 2%float 2%float] in
  canvasSize s2 = (672%float, 378%float) /\ buttonDisabled s2 = true.
Proof.
  assert (Hr : reachable ready_state)
    by (unfold ready_state; apply reachable_run; constructor).
  split; [exact Hr |]. split; [reflexivity |].
  destruct (proj2 (proj2 (@button_starts_the_loop_once ready_state env_ok
                     672%float 378%float
                     [ClickStart env_ok 1%float 1%float;
                      EstimateFacesResolved 1 dims0 [box0];
                      ClickStart env_ok 2%float 2%float] Hr))
              eq_refl eq_refl eq_refl eq_refl)
    as [_ [_ [_ [_ [H5 H6]]]]].
  cbv zeta. split; assumption.
Defined.

(** X16: the cleanup reaches the stream only through [video.srcObject].
    When the stream was not attached to the video element, or the element
    is not there when the cleanup runs, the teardown stops no track, and
    no track is stopped in any later state. *)
Theorem cleanup_without_srcObject_stops_nothing (s : State) (va : bool)
    (l : list nat) (es : list Event) :
  reachable s -> mounted s = true -> camera s = Some l ->
  va = false \/ srcObject s = false ->
  camera (step s (Unmount va)) = Some l /\
  camera (run (step s (Unmount va)) es) = Some l /\
  l = repeat 0 (List.length l).
Proof.
  intros Hr Hm Hc Hno. pose proof (reachable_inv Hr) as I.
  assert (Hb : va && srcObject s = false)
    by (destruct Hno as [-> | ->]; [reflexivity | apply andb_false_r]).
  assert (Hstep : camera (step s (Unmount va)) = Some l /\
                  mounted (step s (Unmount va)) = false /\
                  initPc (step s (Unmount va)) = initPc s).
  { simpl. rewrite Hm. unfold cleanup, cancelCurrent; simpl.
    destruct (animationFrameId s) as [[|n]|]; simpl; rewrite Hb; auto. }
  destruct Hstep as [S1 [S2 S3]].
  assert (Htd : TornDown (step s (Unmount va))).
  { unfold TornDown. rewrite S3. pose proof (inv_pc I) as P.
    repeat split; [exact S2 | |]; intros E; rewrite E in P;
      intuition congruence. }
  split; [exact S1 |]. split; [rewrite (torn_down_run es Htd); exact S1 |].
  assert (Hz : forall n, In n l -> n = 0)
    by (intros n Hn; apply (@inv_tracks s I l n Hc Hn); exact Hm).
  clear -Hz. induction l as [|x l IH]; simpl; [reflexivity|].
  rewrite (Hz x) at 1 by (left; reflexivity). f_equal. apply IH.
  intros n Hn. apply Hz. right. exact Hn.
Qed.

Lemma cleanup_without_srcObject_stops_nothing_witness :
  let s := run initial [Mount; GetUserMediaResolved 1 false] in
  reachable s /\ mounted s = true /\ srcObject s = false /\
  camera s = Some [0] /\
  camera (run (step s (Unmount true)) [Unmount true; LoadedMetadata])
    = Some [0].
Proof.
  cbv zeta.
  assert (Hr : reachable (run initial [Mount; GetUserMediaResolved 1 false]))
    by (apply reachable_run; constructor).
  split; [exact Hr |]. do 3 (split; [reflexivity |]).
  exact (proj1 (proj2 (@cleanup_without_srcObject_stops_nothing _ true [0]
                         [Unmount true; LoadedMetadata]
                         Hr eq_refl eq_refl (or_intror eq_refl)))).
Defined.

(** ** Waiting for the metadata *)

Lemma waiting_step (s : State) (e : Event) :
  Inv s -> initPc s = AwaitLoadedMetadata -> notLoadedMetadata e = true ->
  initPc (step s e) = AwaitLoadedMetadata /\
  detectorRef (step s e) = detectorRef s.
Proof.
  intros I Hpc He. pose proof (inv_pc I) as P. rewrite Hpc in P.
  assert (Hnd : status s <> DETECTING) by congruence.
  destruct (inv_idle I Hnd) as [Hinf Hpen].
  destruct e; try discriminate; simpl; rewrite ?Hpc, ?Hinf, ?Hpen; simpl;
    auto.
  - destruct (mounted s); auto. unfold handleStart. rewrite P. simpl. auto.
  - destruct (mounted s); auto. unfold cleanup, cancelCurrent; simpl.
    destruct (animationFrameId s) as [[|n]|]; simpl;
      destruct (video_attached && srcObject s); simpl; auto.
Qed.

(** X17: [initialize] waits for the video's metadata without a time
    limit: once the stream is attached, as long as [loadedmetadata] has
    not fired, whatever else happens, the status stays
    [INITIALIZING_WEBCAM], the model loading does not begin and the
    detector is not set. *)
Theorem startup_waits_for_metadata (s : State) (es : list Event) :
  reachable s -> initPc s = AwaitLoadedMetadata ->
  forallb notLoadedMetadata es = true ->
  let s' := run s es in
  initPc s' = AwaitLoadedMetadata /\ status s' = INITIALIZING_WEBCAM /\
  detectorRef s' = false.
Proof.
  revert s. induction es as [|e es IH]; intros s Hr Hpc Hall; simpl in *.
  - pose proof (reachable_inv Hr) as I. pose proof (inv_pc I) as P.
    rewrite Hpc in P. repeat split; auto.
    destruct (detectorRef s) eqn:E; [|reflexivity].
    pose proof (inv_det I E). congruence.
  - apply andb_prop in Hall. destruct Hall as [He Hes].
    destruct (waiting_step e (reachable_inv Hr) Hpc He) as [H1 _].
    apply IH; [constructor; exact Hr | exact H1 | exact Hes].
Qed.

Lemma startup_waits_for_metadata_witness :
  let s := run initial [Mount; GetUserMediaResolved 1 true] in
  let es := [SetBackendSettled true; TfReadySettled true;
             CreateDetectorSettled true;
             ClickStart env_ok 672%float 378%float] in
  reachable s /\ initPc s = AwaitLoadedMetadata /\
  forallb notLoadedMetadata es = true /\
  status (run s es) = INITIALIZING_WEBCAM.
Proof.
  cbv zeta.
  assert (Hr : reachable (run initial [Mount; GetUserMediaResolved 1 true]))
    by (apply reachable_run; constructor).
  split; [exact Hr |]. do 2 (split; [reflexivity |]).
  exact (proj1 (proj2 (@startup_waits_for_metadata _
                         [SetBackendSettled true; TfReadySettled true;
                          CreateDetectorSettled true;
                          ClickStart env_ok 672%float 378%float]
                         Hr eq_refl eq_refl))).
Defined.
